(** * mihaaruTranslator: the extraction, translation and delivery pipeline

    A shallow embedding of [mihaaru_translate_bot.py].  Python strings are
    sequences of Unicode code points, so a [pystr] is a list of code points
    and [len] counts code points, as Python's [len] does.  Integers that the
    source computes with (positions, the [-1] of [str.rfind]) are in [Z]. *)

From Stdlib Require Import Ascii String.
From Stdlib Require Import ZArith List Bool Lia.
Import ListNotations.

Open Scope Z_scope.

(** ** Python strings *)

Definition char := N.
Definition pystr := list char.

Definition len (s : pystr) : Z := Z.of_nat (length s).

(** A source literal, written in ASCII, as its code points. *)
Fixpoint lit (s : string) : pystr :=
  match s with
  | EmptyString => []
  | String a s' => N_of_ascii a :: lit s'
  end.

Definition newline : char := 10%N.

Definition char_eqb (a b : char) : bool := N.eqb a b.

Fixpoint str_eqb (a b : pystr) : bool :=
  match a, b with
  | [], [] => true
  | x :: a', y :: b' => char_eqb x y && str_eqb a' b'
  | _, _ => false
  end.

(** [str.isspace] on one code point, which is also what [str.strip()] removes
    and what [\s] and [\S] of [re] test on a [str] pattern. *)
Definition is_space (c : char) : bool :=
  let n := Z.of_N c in
  ((9 <=? n) && (n <=? 13)) || ((28 <=? n) && (n <=? 32))
  || (n =? 133) || (n =? 160) || (n =? 5760)
  || ((8192 <=? n) && (n <=? 8202))
  || (n =? 8232) || (n =? 8233) || (n =? 8239) || (n =? 8287) || (n =? 12288).

(** [text[a:b]] and [text[a:]] for [0 <= a]; a [b] beyond the end is clamped,
    as Python does.  The source only slices at non-negative positions. *)
Definition slice (text : pystr) (a b : Z) : pystr :=
  firstn (Z.to_nat (b - a)) (skipn (Z.to_nat a) text).

Definition slice_from (text : pystr) (a : Z) : pystr :=
  skipn (Z.to_nat a) text.

(** Index of the last occurrence of [c] in [l], counted from [i]; [-1] when
    there is none. *)
Fixpoint last_index (c : char) (l : pystr) (i : Z) (found : Z) : Z :=
  match l with
  | [] => found
  | x :: l' => last_index c l' (i + 1) (if char_eqb x c then i else found)
  end.

(** [text.rfind(c, start, end_)] for [0 <= start]: the highest index in
    [start, min(end_, len(text)))] holding [c], or [-1]. *)
Definition rfind (text : pystr) (c : char) (start end_ : Z) : Z :=
  last_index c (slice text start end_) start (-1).

(** ** Splitting a long message ([send_telegram_message_telethon], the
    [while] loop) *)

Definition MAX_MESSAGE_LENGTH : Z := 4000.

Inductive loop_step :=
| Break (parts : list pystr)
| Continue (parts : list pystr) (current_pos : Z).

(** One pass through the body of [while current_pos < len(text)], entered
    with the guard true. *)
Definition loop_body (text : pystr) (parts : list pystr) (current_pos : Z)
  : loop_step :=
  let chunk_end := current_pos + MAX_MESSAGE_LENGTH in
  if chunk_end >=? len text then
    Break (parts ++ [slice_from text current_pos])
  else
    let split_at := rfind text newline current_pos chunk_end in
    if negb (split_at =? -1) && (split_at >? current_pos) then
      Continue (parts ++ [slice text current_pos split_at]) (split_at + 1)
    else
      Continue (parts ++ [slice text current_pos chunk_end]) chunk_end.

(** The [while] loop, with a bound on the number of iterations: [None] means
    the bound was reached before the loop ended. *)
Fixpoint split_loop (fuel : nat) (text : pystr) (parts : list pystr)
  (current_pos : Z) : option (list pystr) :=
  match fuel with
  | O => None
  | S fuel' =>
      if current_pos <? len text then
        match loop_body text parts current_pos with
        | Break parts' => Some parts'
        | Continue parts' pos' => split_loop fuel' text parts' pos'
        end
      else Some parts
  end.

(** [parts = []; current_pos = 0; while ...]: one iteration per character is
    always enough (see [split_message_chunked]). *)
Definition split_message (text : pystr) : option (list pystr) :=
  split_loop (S (length text)) text [] 0.

(** The [parts] the [for] loop goes through.  The bound of [split_message]
    is never reached, so the second case below does not occur. *)
Definition message_parts (text : pystr) : list pystr :=
  match split_message text with
  | Some parts => parts
  | None => []
  end.

(** ** More of [str] *)

Definition truthy (s : option pystr) : bool :=
  match s with
  | Some (_ :: _) => true
  | _ => false
  end.

Fixpoint lstrip (s : pystr) : pystr :=
  match s with
  | [] => []
  | c :: s' => if is_space c then lstrip s' else s
  end.

Definition rstrip (s : pystr) : pystr := rev (lstrip (rev s)).

(** [s.strip()] *)
Definition strip (s : pystr) : pystr := rstrip (lstrip s).

(** [sep.join(l)] *)
Fixpoint join (sep : pystr) (l : list pystr) : pystr :=
  match l with
  | [] => []
  | [x] => x
  | x :: l' => x ++ sep ++ join sep l'
  end.

Fixpoint strip_prefix (p s : pystr) : option pystr :=
  match p, s with
  | [], _ => Some s
  | a :: p', b :: s' => if char_eqb a b then strip_prefix p' s' else None
  | _ :: _, [] => None
  end.

(** [needle in hay] *)
Fixpoint contains (needle hay : pystr) : bool :=
  match strip_prefix needle hay with
  | Some _ => true
  | None => match hay with
            | [] => false
            | _ :: hay' => contains needle hay'
            end
  end.

(** [c.lower()] for one code point.  The ASCII letters are mapped as Python
    maps them; of the other code points only the two whose lower case
    contains an ASCII letter are mapped (U+0130 and the Kelvin sign), which is
    all that a search for an ASCII phrase in the result can observe. *)
Definition lower_char (c : char) : pystr :=
  let n := Z.of_N c in
  if (65 <=? n) && (n <=? 90) then [N.add c 32]
  else if n =? 304 then [105%N; 775%N]
  else if n =? 8490 then [107%N]
  else [c].

Definition lower (s : pystr) : pystr := flat_map lower_char s.

(** [s.replace(old, new)] for a one-character [old]. *)
Definition replace_char (old : char) (new : pystr) (s : pystr) : pystr :=
  flat_map (fun c => if char_eqb c old then new else [c]) s.

Fixpoint take_nonspace (s : pystr) : pystr :=
  match s with
  | [] => []
  | c :: s' => if is_space c then [] else c :: take_nonspace s'
  end.

(** A match of [URL_REGEX = https?://\S+] starting at the head of [s]. *)
Definition match_url_at (s : pystr) : option pystr :=
  let tail (scheme r : pystr) : option pystr :=
    match strip_prefix (lit "://") r with
    | Some t => match take_nonspace t with
                | [] => None
                | run => Some (scheme ++ lit "://" ++ run)
                end
    | None => None
    end in
  match strip_prefix (lit "http") s with
  | None => None
  | Some r =>
      match (match strip_prefix (lit "s") r with
             | Some r' => tail (lit "https") r'
             | None => None
             end) with
      | Some u => Some u
      | None => tail (lit "http") r
      end
  end.

(** [URL_REGEX.findall(text)[0]], or [None] when the list is empty. *)
Fixpoint first_url (s : pystr) : option pystr :=
  match match_url_at s with
  | Some u => Some u
  | None => match s with
            | [] => None
            | _ :: s' => first_url s'
            end
  end.

Definition count_newlines (s : pystr) : Z :=
  len (filter (char_eqb newline) s).

(** A maximal run of whitespace, as [re.sub] with the pattern
    [( \s* \n \s* ){3,}] (written here with spaces) and the replacement of
    two newlines leaves it: a match of the pattern starts where a whitespace
    run with at least three newlines starts and, every quantifier being
    greedy, ends where that run ends. *)
Definition flush_run (run : pystr) : pystr :=
  if 3 <=? count_newlines run then [newline; newline] else run.

Fixpoint collapse_from (run : pystr) (s : pystr) : pystr :=
  match s with
  | [] => flush_run run
  | c :: s' =>
      if is_space c then collapse_from (run ++ [c]) s'
      else flush_run run ++ c :: collapse_from [] s'
  end.

Definition collapse_blank_runs (s : pystr) : pystr := collapse_from [] s.

(** ** The document tree of BeautifulSoup *)

#[warnings="-register-all"]
Inductive node :=
| Text (s : pystr)                       (* NavigableString *)
| Comm (s : pystr)                       (* Comment *)
| Elem (name : pystr) (classes : list pystr) (children : list node).  (* Tag *)

(** The children of the [BeautifulSoup] object. *)
Definition soup := list node.

(** A node followed by its descendants, in document order. *)
Fixpoint self_and_descendants (n : node) : list node :=
  n :: match n with
       | Elem _ _ ch => flat_map self_and_descendants ch
       | _ => []
       end.

Definition doc_order (doc : soup) : list node :=
  flat_map self_and_descendants doc.

Definition has_class (c : string) (classes : list pystr) : bool :=
  existsb (str_eqb (lit c)) classes.

Definition is_tag (name : string) (n : node) : bool :=
  match n with
  | Elem nm _ _ => str_eqb nm (lit name)
  | _ => false
  end.

(** The strings [get_text] sees below a node of the parsed document: its
    [Text] nodes, not the comments. *)
Fixpoint strings_of (n : node) : list pystr :=
  match n with
  | Text s => [s]
  | Comm _ => []
  | Elem _ _ ch => flat_map strings_of ch
  end.

Definition nonempty (s : pystr) : bool :=
  match s with [] => false | _ => true end.

(** [tag.get_text(separator=sep, strip=True)] *)
Definition get_text_of (sep : pystr) (strings : list pystr) : pystr :=
  join sep (filter nonempty (map strip strings)).

Definition get_text (sep : pystr) (n : node) : pystr :=
  get_text_of sep (strings_of n).

(** ** [BeautifulSoup(html, 'html.parser')]: the classes of strings

    The tree builder gives the character data read while a [rt], [rp],
    [style], [script] or [template] element is open a string class of its
    own (RubyTextString, RubyParenthesisString, Stylesheet, Script,
    TemplateString); comments stay comments.  [get_text], called on a tag
    of any other name, yields only the strings whose class is exactly
    NavigableString or CData, and the program calls it on [h1], [p],
    [article] and [body] tags and on the document only; the search for the
    marker looks at comments only.  To this program such a string is
    therefore never visible, and the parsed document holds [Text] for the
    visible strings alone. *)
Definition STRING_CONTAINERS : list pystr :=
  map lit ["rt"; "rp"; "style"; "script"; "template"]%string.

Definition is_string_container (name : pystr) : bool :=
  existsb (str_eqb name) STRING_CONTAINERS.

(** [inside]: a string container is open. *)
Fixpoint visible_strings (inside : bool) (n : node) : list node :=
  match n with
  | Text s => if inside then [] else [Text s]
  | Comm s => [Comm s]
  | Elem nm cl ch =>
      [Elem nm cl
         (flat_map (visible_strings (inside || is_string_container nm)) ch)]
  end.

Definition BeautifulSoup (html : soup) : soup :=
  flat_map (visible_strings false) html.

(** [for tag in soup.find_all(name): tag.decompose()] *)
Fixpoint decompose_tag (name : pystr) (n : node) : list node :=
  match n with
  | Elem nm cl ch =>
      if str_eqb nm name then []
      else [Elem nm cl (flat_map (decompose_tag name) ch)]
  | _ => [n]
  end.

Definition decompose_all (name : pystr) (doc : soup) : soup :=
  flat_map (decompose_tag name) doc.

Definition STRIPPED_TAGS : list pystr :=
  map lit ["script"; "style"; "header"; "footer"; "nav"; "aside"; "form";
           "img"; "figure"; "figcaption"; "iframe"; "button"; "input";
           "textarea"; "select"; "option"]%string.

Definition strip_tags (doc : soup) : soup :=
  fold_left (fun d name => decompose_all name d) STRIPPED_TAGS doc.

(** [soup.find('h1', class_=...)], both variants: the class test sees the
    tokens of the class attribute. *)
Definition title_classes_1 (classes : list pystr) : bool :=
  has_class "text-waheed" classes && has_class "text-black-two" classes.

Definition title_classes_2 (classes : list pystr) : bool :=
  has_class "text-40px" classes && has_class "text-waheed" classes.

Definition find_h1 (test : list pystr -> bool) (doc : soup) : option node :=
  find (fun n => match n with
                 | Elem nm cl _ => str_eqb nm (lit "h1") && test cl
                 | _ => false
                 end) (doc_order doc).

Definition find_title_tag (doc : soup) : option node :=
  match find_h1 title_classes_1 doc with
  | Some t => Some t
  | None => find_h1 title_classes_2 doc
  end.

(** [soup.find(string=lambda text: isinstance(text, Comment) and
    "article body" in text.lower())] followed by [.find_all_next()]: the
    nodes after the first such comment in document order, tags only. *)
Fixpoint after_marker (l : list node) : option (list node) :=
  match l with
  | [] => None
  | Comm s :: l' =>
      if contains (lit "article body") (lower s) then Some l'
      else after_marker l'
  | _ :: l' => after_marker l'
  end.

Definition is_element (n : node) : bool :=
  match n with Elem _ _ _ => true | _ => false end.

Definition find_all_next (doc : soup) : option (list node) :=
  option_map (filter is_element) (after_marker (doc_order doc)).

Definition is_stop_div (name : pystr) (classes : list pystr) : bool :=
  str_eqb name (lit "div") && has_class "hidden" classes
  && has_class "lg:block" classes
  && (has_class "m1-10" classes || has_class "ml-10" classes).

Definition is_article_paragraph (classes : list pystr) : bool :=
  let has_required_classes :=
    has_class "text-19px" classes && has_class "leading-loose" classes in
  let has_faseyha := has_class "text-faseyha" classes in
  (has_required_classes && has_faseyha)
  || (has_required_classes && has_class "max-w-3xl" classes
      && has_class "text-black-two" classes).

(** The [for element in ...find_all_next()] loop with its [break]. *)
Fixpoint collect_article_texts (elements : list node) : list pystr :=
  match elements with
  | [] => []
  | Elem name classes ch :: rest =>
      if is_stop_div name classes then []
      else if str_eqb name (lit "p") && is_article_paragraph classes then
        get_text [newline] (Elem name classes ch) :: collect_article_texts rest
      else collect_article_texts rest
  | _ :: rest => collect_article_texts rest
  end.

(** [extracted_body_text] after the comment-based step (5a). *)
Definition comment_based_body (doc : soup) : pystr :=
  match find_all_next doc with
  | Some elements =>
      match collect_article_texts elements with
      | [] => []
      | article_texts => join [newline; newline] article_texts
      end
  | None => []
  end.

(** The fallbacks: [<article>], then [soup.body], then the whole document. *)
Definition fallback_body (doc : soup) : pystr :=
  match find (is_tag "article") (doc_order doc) with
  | Some article_tag => get_text [newline] article_tag
  | None =>
      match find (is_tag "body") (doc_order doc) with
      | Some body => get_text [newline] body
      | None => get_text_of [newline] (flat_map strings_of doc)
      end
  end.

Definition extracted_body_text (doc : soup) : pystr :=
  match comment_based_body doc with
  | [] => fallback_body doc
  | text => text
  end.

Definition final_body_text (extracted : pystr) : option pystr :=
  match extracted with
  | [] => None
  | _ => Some (strip (collapse_blank_runs extracted))
  end.

(** ** Effects: the log, the network and the messaging client

    Everything the program does to the outside is recorded, in order, in a
    trace.  What the outside answers is given by an environment [env]. *)

Definition entity := Z.

Inductive level := INFO | WARNING | ERROR.

Inductive log_msg :=
| FetchHttpStatus (url : pystr) (status : Z)
| NoTitleTag (url : pystr)
| NothingExtracted (url : pystr)
| FetchGeneralError (url : pystr)
| OpenAINotInitialized
| OpenAIError
| AnthropicNotInitialized
| AnthropicError
| NoValidProvider (provider : pystr)
| SendFailed (dest : entity)
| MessageTooLong (length : Z)
| SendingPart (i n : Z) (dest : entity)
| PartFailed (i : Z) (dest : entity)
| NewMessageReceived (chat : entity)
| DetectedUrl (url : pystr)
| BodyTooShort (url : pystr)
| TranslatingTitle (url : pystr)
| TranslatingBody (url : pystr)
| BodyTranslationFailed (url : pystr)
| SendingTranslation (url : pystr)
| TranslationSent (url : pystr)
| ManualReceived (url : pystr) (chat : entity)
| ManualBodyTooShort (url : pystr)
| ManualTranslatingTitle (url : pystr)
| ManualTranslatingBody (url : pystr)
| ManualBodyTranslationFailed (url : pystr)
| ManualSending (url : pystr) (chat : entity)
| ManualSent (url : pystr) (chat : entity).

Inductive provider := OpenAI | Anthropic.

(** The request to [chat.completions.create] / [messages.create]; the
    temperature is the constant 0.3 in both. *)
Record request := {
  req_model : pystr;
  req_system : pystr;
  req_user : pystr;
  req_max_tokens : Z
}.

Inductive event :=
| EvLog (lv : level) (m : log_msg)
| EvHttpGet (url : pystr)
| EvProviderCall (p : provider) (r : request)
| EvSendMessage (dest : entity) (text : pystr)
| EvSleep (seconds : Z)
| EvReply (chat : entity) (text : pystr).

Definition trace := list event.

Inductive http_outcome :=
| HttpRaised                               (* network error, timeout *)
| HttpResponse (status : Z) (html : soup). (* the markup of the body, as a tree *)

Inductive provider_outcome :=
| CallRaised                 (* the call raised *)
| Malformed                  (* no choices[0] / content[0], or no text in it *)
| Content (text : pystr).

(** The outside world during one run of a handler.  A fetch, a provider
    call and a reply are answered by what is asked: within one run each of
    them is asked at most once (the title and the body request differ in
    their system prompt).  Sends can repeat a text, so whether a send raises
    may depend on everything that happened before it. *)
Record env := {
  http_get : pystr -> http_outcome;
  openai_create : request -> provider_outcome;
  anthropic_create : request -> provider_outcome;
  (* does [client.send_message] raise, given all that happened before *)
  send_message_raises : trace -> entity -> pystr -> bool;
  reply_raises : pystr -> bool
}.

Record config := {
  TRANSLATION_PROVIDER : pystr;
  OPENAI_API_KEY : option pystr;
  ANTHROPIC_API_KEY : option pystr;
  OPENAI_MODEL_NAME : pystr;
  ANTHROPIC_MODEL_NAME : pystr
}.

(** The module-level client set-up: a client exists for the selected
    provider when its key is set. *)
Definition openai_client (cfg : config) : bool :=
  str_eqb (TRANSLATION_PROVIDER cfg) (lit "openai") && truthy (OPENAI_API_KEY cfg).

Definition anthropic_client (cfg : config) : bool :=
  str_eqb (TRANSLATION_PROVIDER cfg) (lit "anthropic")
  && truthy (ANTHROPIC_API_KEY cfg).

(** A computation: it extends the trace and returns or raises. *)
Inductive outcome (A : Type) :=
| Ok (a : A)
| Raised.
Arguments Ok {A} a.
Arguments Raised {A}.

Definition M (A : Type) := trace -> outcome A * trace.

Definition ret {A} (a : A) : M A := fun tr => (Ok a, tr).

Definition bind {A B} (m : M A) (k : A -> M B) : M B :=
  fun tr => match m tr with
            | (Ok a, tr') => k a tr'
            | (Raised, tr') => (Raised, tr')
            end.

Definition raise {A} : M A := fun tr => (Raised, tr).

Definition emit (e : event) : M unit := fun tr => (Ok tt, tr ++ [e]).

(** [try: m  except Exception: handler] *)
Definition try_except {A} (m : M A) (handler : M A) : M A :=
  fun tr => match m tr with
            | (Ok a, tr') => (Ok a, tr')
            | (Raised, tr') => handler tr'
            end.

Declare Scope py_scope.
Delimit Scope py_scope with py.
Notation "x <- m ;; k" := (bind m (fun x => k))
  (at level 61, m at next level, right associativity) : py_scope.
Notation "m ;; k" := (bind m (fun _ => k))
  (at level 61, right associativity) : py_scope.
Open Scope py_scope.

Definition log (lv : level) (m : log_msg) : M unit := emit (EvLog lv m).

(** ** [translate_text] *)

Definition title_prompt : pystr :=
  lit "You are a helpful assistant that translates a Dhivehi news article title to English. Provide only the translated English title. Keep it concise and impactful.".

Definition body_prompt : pystr :=
  lit "You are a helpful assistant that translates Dhivehi text to English. Provide only the translated English text as output, without any additional commentary or phrases like 'Here is the translation:'. Maintain a journalistic and formal tone in the English translation.".

Definition make_request (model : pystr) (dhivehi_text : pystr) (is_title : bool)
  : request :=
  {| req_model := model;
     req_system := if is_title then title_prompt else body_prompt;
     (* the source writes \\n in an f-string: a backslash and an n *)
     req_user := lit "Translate the following Dhivehi text to English:\n\n"
                 ++ dhivehi_text;
     req_max_tokens := if is_title then 1000 else 3000 |}.

(** The [try] block of one provider: the call, then [.strip()] of the text
    of the first choice; a missing field raises like the call itself. *)
Definition call_provider (p : provider) (answer : request -> provider_outcome)
  (r : request) : M (option pystr) :=
  emit (EvProviderCall p r) ;;
  match answer r with
  | CallRaised => raise
  | Malformed => raise
  | Content text => ret (Some (strip text))
  end.

Definition translate_text (cfg : config) (e : env)
  (dhivehi_text : option pystr) (is_title : bool) : M (option pystr) :=
  match dhivehi_text with
  | None => ret None
  | Some [] => ret None
  | Some text =>
      if str_eqb (TRANSLATION_PROVIDER cfg) (lit "openai") then
        if negb (openai_client cfg) then
          log ERROR OpenAINotInitialized ;; ret None
        else
          try_except
            (call_provider OpenAI (openai_create e)
               (make_request (OPENAI_MODEL_NAME cfg) text is_title))
            (log ERROR OpenAIError ;; ret None)
      else if str_eqb (TRANSLATION_PROVIDER cfg) (lit "anthropic") then
        if negb (anthropic_client cfg) then
          log ERROR AnthropicNotInitialized ;; ret None
        else
          try_except
            (call_provider Anthropic (anthropic_create e)
               (make_request (ANTHROPIC_MODEL_NAME cfg) text is_title))
            (log ERROR AnthropicError ;; ret None)
      else
        log ERROR (NoValidProvider (TRANSLATION_PROVIDER cfg)) ;; ret None
  end.

(** ** [send_telegram_message_telethon] *)

Definition send_message (e : env) (dest : entity) (text : pystr) : M unit :=
  fun tr =>
    (if send_message_raises e tr dest text then Raised else Ok tt,
     tr ++ [EvSendMessage dest text]).

Definition sleep (seconds : Z) : M unit := emit (EvSleep seconds).

(** [for i, part in enumerate(parts)], from index [i] on; [n] is
    [len(parts)]. *)
Fixpoint send_parts (e : env) (dest : entity) (n i : Z) (parts : list pystr)
  : M unit :=
  match parts with
  | [] => ret tt
  | part :: rest =>
      try_except
        (log INFO (SendingPart (i + 1) n dest) ;;
         send_message e dest part ;;
         if i <? n - 1 then sleep 1 else ret tt)
        (log ERROR (PartFailed (i + 1) dest)) ;;
      send_parts e dest n (i + 1) rest
  end.

Definition send_telegram_message_telethon (e : env) (dest : entity)
  (text : pystr) : M unit :=
  if len text <=? MAX_MESSAGE_LENGTH then
    try_except (send_message e dest text) (log ERROR (SendFailed dest))
  else
    log INFO (MessageTooLong (len text)) ;;
    let parts := message_parts text in
    send_parts e dest (Z.of_nat (length parts)) 0 parts.

(** ** [fetch_article_text] *)

(** From the markup of the response to the returned pair.  The title is
    read from the parsed document as it is, the body after the [decompose]
    loop. *)
Definition extract_article (url : pystr) (html : soup)
  : M (option pystr * option pystr) :=
  let soup := BeautifulSoup html in
  dhivehi_title <-
    match find_title_tag soup with
    | Some title_tag => ret (Some (get_text [] title_tag))
    | None => log WARNING (NoTitleTag url) ;; ret None
    end ;;
  let final := final_body_text (extracted_body_text (strip_tags soup)) in
  if negb (truthy dhivehi_title) && negb (truthy final) then
    log ERROR (NothingExtracted url) ;; ret (None, None)
  else ret (dhivehi_title, final).

Definition fetch_article_text (e : env) (url : pystr)
  : M (option pystr * option pystr) :=
  try_except
    (emit (EvHttpGet url) ;;
     match http_get e url with
     | HttpRaised => raise
     | HttpResponse status html =>
         if negb (status =? 200) then
           log ERROR (FetchHttpStatus url status) ;; ret (None, None)
         else extract_article url html
     end)
    (log ERROR (FetchGeneralError url) ;; ret (None, None)).

(** ** The two handlers *)

Definition quote : pystr := [34%N].

Definition text_of (s : option pystr) : pystr :=
  match s with Some t => t | None => [] end.

(** [text or ""] *)
Definition or_empty (s : option pystr) : pystr :=
  if truthy s then text_of s else [].

(** [not text or len(text) < minimum] *)
Definition too_short (minimum : Z) (text : option pystr) : bool :=
  negb (truthy text) || (len (text_of text) <? minimum).

Definition format_url (url : pystr) : pystr :=
  replace_char 62%N (lit "&gt;")
    (replace_char 60%N (lit "&lt;")
       (replace_char 38%N (lit "&amp;") url)).

Definition compose_message (translated_title_english : option pystr)
  (translation_english_body url : pystr) : pystr :=
  let message_to_send := [] in
  let message_to_send :=
    if truthy translated_title_english then
      message_to_send ++ lit "<b>" ++ text_of translated_title_english
        ++ lit "</b>" ++ [newline; newline]
    else message_to_send in
  let message_to_send :=
    message_to_send ++ translation_english_body ++ [newline; newline] in
  message_to_send ++ lit "<a href=" ++ quote ++ format_url url ++ quote
    ++ lit ">Original Article</a>".

Record post_event := {
  post_chat_id : entity;
  post_text : option pystr        (* event.message.text *)
}.

Record command_event := {
  cmd_chat_id : entity;
  cmd_group1 : pystr               (* event.pattern_match.group(1) *)
}.

Definition handle_new_post (cfg : config) (e : env)
  (target_channel_entity : entity) (ev : post_event) : M unit :=
  log INFO (NewMessageReceived (post_chat_id ev)) ;;
  let message_text := or_empty (post_text ev) in
  match first_url message_text with
  | None => ret tt
  | Some url =>
      log INFO (DetectedUrl url) ;;
      fetched <- fetch_article_text e url ;;
      let dhivehi_title := fst fetched in
      let article_text_dhivehi := snd fetched in
      if too_short 50 article_text_dhivehi then
        log WARNING (BodyTooShort url) ;; ret tt
      else
        translated_title_english <-
          (if truthy dhivehi_title then
             log INFO (TranslatingTitle url) ;;
             translate_text cfg e dhivehi_title true
           else ret None) ;;
        log INFO (TranslatingBody url) ;;
        translation_english_body <- translate_text cfg e article_text_dhivehi false ;;
        if negb (truthy translation_english_body) then
          log WARNING (BodyTranslationFailed url) ;; ret tt
        else
          let message_to_send :=
            compose_message translated_title_english
              (text_of translation_english_body) url in
          log INFO (SendingTranslation url) ;;
          send_telegram_message_telethon e target_channel_entity message_to_send ;;
          log INFO (TranslationSent url)
  end.

Definition reply (e : env) (chat : entity) (text : pystr) : M unit :=
  fun tr =>
    (if reply_raises e text then Raised else Ok tt, tr ++ [EvReply chat text]).

Definition usage_reply : pystr :=
  lit "Please provide a URL after the /translate command. Example: `/translate https://example.com/article`".

Definition processing_reply (url : pystr) : pystr :=
  lit "Processing manual translation for: " ++ url ++ lit "...".

Definition extraction_failed_reply (url : pystr) : pystr :=
  lit "Could not extract enough article body text from " ++ url
    ++ lit ". Please check the URL or try another.".

Definition translation_failed_reply (url : pystr) : pystr :=
  lit "Translation of body failed for " ++ url
    ++ lit ". The translation service might be unavailable or the content is not translatable.".

Definition manual_translate_handler (cfg : config) (e : env)
  (ev : command_event) : M unit :=
  let chat := cmd_chat_id ev in
  let command_text := strip (cmd_group1 ev) in
  match first_url command_text with
  | None => reply e chat usage_reply
  | Some url =>
      log INFO (ManualReceived url chat) ;;
      reply e chat (processing_reply url) ;;
      fetched <- fetch_article_text e url ;;
      let dhivehi_title := fst fetched in
      let article_text_dhivehi := snd fetched in
      if too_short 30 article_text_dhivehi then
        log WARNING (ManualBodyTooShort url) ;;
        reply e chat (extraction_failed_reply url)
      else
        translated_title_english <-
          (if truthy dhivehi_title then
             log INFO (ManualTranslatingTitle url) ;;
             translate_text cfg e dhivehi_title true
           else ret None) ;;
        log INFO (ManualTranslatingBody url) ;;
        translation_english_body <- translate_text cfg e article_text_dhivehi false ;;
        if negb (truthy translation_english_body) then
          log WARNING (ManualBodyTranslationFailed url) ;;
          reply e chat (translation_failed_reply url)
        else
          let message_to_send :=
            compose_message translated_title_english
              (text_of translation_english_body) url in
          log INFO (ManualSending url chat) ;;
          send_telegram_message_telethon e chat message_to_send ;;
          log INFO (ManualSent url chat)
  end.

(** * Specification vocabulary *)

Definition no_newline (s : pystr) : Prop := Forall (fun c => c <> newline) s.

(** What the splitting loop makes of the text that remains: the last part
    when at most 4000 characters remain; otherwise a part that ends before
    the last newline of the 4000-character window, provided that newline is
    not the window's first character, the newline being dropped; otherwise
    the whole window. *)
Inductive chunked : pystr -> list pystr -> Prop :=
| chunked_last rest :
    0 < len rest <= MAX_MESSAGE_LENGTH ->
    chunked rest [rest]
| chunked_newline p rest parts :
    MAX_MESSAGE_LENGTH < len (p ++ newline :: rest) ->
    0 < len p < MAX_MESSAGE_LENGTH ->
    no_newline (firstn (Z.to_nat (MAX_MESSAGE_LENGTH - len p - 1)) rest) ->
    chunked rest parts ->
    chunked (p ++ newline :: rest) (p :: parts)
| chunked_cut p rest parts :
    len p = MAX_MESSAGE_LENGTH ->
    rest <> [] ->
    no_newline (tl p) ->
    chunked rest parts ->
    chunked (p ++ rest) (p :: parts).

(** The same, read as the specification words it: break at the last newline
    of the window whenever the window holds one, cut at the boundary only
    when it holds none. *)
Inductive chunked_as_specified : pystr -> list pystr -> Prop :=
| specified_last rest :
    0 < len rest <= MAX_MESSAGE_LENGTH ->
    chunked_as_specified rest [rest]
| specified_newline p rest parts :
    MAX_MESSAGE_LENGTH < len (p ++ newline :: rest) ->
    0 <= len p < MAX_MESSAGE_LENGTH ->
    no_newline (firstn (Z.to_nat (MAX_MESSAGE_LENGTH - len p - 1)) rest) ->
    chunked_as_specified rest parts ->
    chunked_as_specified (p ++ newline :: rest) (p :: parts)
| specified_cut p rest parts :
    len p = MAX_MESSAGE_LENGTH ->
    rest <> [] ->
    no_newline p ->
    chunked_as_specified rest parts ->
    chunked_as_specified (p ++ rest) (p :: parts).

Definition non_space (c : char) : bool := negb (is_space c).

(** What a computation returns and what it adds to an empty trace. *)
Definition value_of {A} (m : M A) : outcome A := fst (m []).
Definition events_of {A} (m : M A) : trace := snd (m []).

(** The parts in which [send_telegram_message_telethon] sends a text. *)
Definition outbound_parts (text : pystr) : list pystr :=
  if len text <=? MAX_MESSAGE_LENGTH then [text] else message_parts text.

(** No run of whitespace in [s] holds three newlines or more, [k] being the
    newlines of the run that [s] continues. *)
Fixpoint blank_runs_short (k : Z) (s : pystr) : bool :=
  match s with
  | [] => k <? 3
  | c :: s' =>
      if is_space c then
        blank_runs_short (if char_eqb newline c then k + 1 else k) s'
      else (k <? 3) && blank_runs_short 0 s'
  end.

(** A text that neither starts nor ends with whitespace, and is not empty. *)
Definition trimmed (t : pystr) : Prop :=
  (exists a m, t = a :: m /\ is_space a = false)
  /\ (exists m z, t = m ++ [z] /\ is_space z = false).


(** A comment that marks the start of the article body. *)
Definition is_marker_comment (n : node) : bool :=
  match n with
  | Comm s => contains (lit "article body") (lower s)
  | _ => false
  end.

(** A node that is neither a divider nor a paragraph of the article: a
    string, a comment, or an element other than a [div] with the classes
    [hidden] and [lg:block] and other than a [p] with the classes
    [text-19px] and [leading-loose]. *)
Definition plain_node (n : node) : bool :=
  match n with
  | Elem name classes _ =>
      negb (str_eqb name (lit "div") && has_class "hidden" classes
            && has_class "lg:block" classes)
      && negb (str_eqb name (lit "p") && has_class "text-19px" classes
               && has_class "leading-loose" classes)
  | _ => true
  end.

(** A paragraph of the article as the scenario has it: a [p] with the
    classes [text-19px leading-loose text-faseyha], whatever other classes it
    has, holding strings and inline markup. *)
Definition scenario_paragraph (n : node) : bool :=
  match n with
  | Elem name classes children =>
      str_eqb name (lit "p") && has_class "text-19px" classes
      && has_class "leading-loose" classes && has_class "text-faseyha" classes
      && forallb plain_node (flat_map self_and_descendants children)
  | _ => false
  end.

(** The divider of the scenario: a [div] with the classes
    [hidden lg:block ml-10]. *)
Definition scenario_divider (n : node) : bool :=
  match n with
  | Elem name classes _ =>
      str_eqb name (lit "div") && has_class "hidden" classes
      && has_class "lg:block" classes && has_class "ml-10" classes
  | _ => false
  end.

(** The texts sent, with their destinations, in the order of the trace. *)
Definition sends (evs : list event) : list (entity * pystr) :=
  flat_map (fun ev => match ev with
                      | EvSendMessage dest text => [(dest, text)]
                      | _ => []
                      end) evs.

Definition provider_calls (evs : list event) : list (provider * request) :=
  flat_map (fun ev => match ev with
                      | EvProviderCall p r => [(p, r)]
                      | _ => []
                      end) evs.

Definition replies (evs : list event) : list (entity * pystr) :=
  flat_map (fun ev => match ev with
                      | EvReply chat text => [(chat, text)]
                      | _ => []
                      end) evs.

(** The lines with which the handlers report a failed body translation. *)
Definition translation_failures (evs : list event) : list log_msg :=
  flat_map (fun ev => match ev with
                      | EvLog _ (BodyTranslationFailed url) =>
                          [BodyTranslationFailed url]
                      | EvLog _ (ManualBodyTranslationFailed url) =>
                          [ManualBodyTranslationFailed url]
                      | _ => []
                      end) evs.

(** Events that deliver nothing and report no failed body translation. *)
Definition internal (evs : list event) : Prop :=
  sends evs = [] /\ replies evs = [] /\ translation_failures evs = [].

(** The title translation a handler holds when it reaches the body: [None]
    when there was no title to translate. *)
Definition translated_title (cfg : config) (e : env) (title : option pystr)
  : option pystr :=
  if truthy title then
    match value_of (translate_text cfg e title true) with
    | Ok v => v
    | Raised => None
    end
  else None.

(** The anchor that ends every outbound message. *)
Definition original_article_link (url : pystr) : pystr :=
  lit "<a href=" ++ quote ++ format_url url ++ quote
    ++ lit ">Original Article</a>".

(** The events of delivering [parts] to [dest] after the history [h], the
    first of them being part number [i] of [n]: every part is announced and
    attempted; a send that raises is followed by its error line, a send that
    succeeds by a pause of one second unless it was the last part. *)
Inductive delivery (e : env) (dest : entity) (n : Z)
  : trace -> Z -> list pystr -> list event -> Prop :=
| delivery_done h i :
    delivery e dest n h i [] []
| delivery_sent h i part rest evs :
    send_message_raises e (h ++ [EvLog INFO (SendingPart i n dest)]) dest part
    = false ->
    delivery e dest n
      (h ++ [EvLog INFO (SendingPart i n dest); EvSendMessage dest part]
         ++ match rest with [] => [] | _ => [EvSleep 1] end)
      (i + 1) rest evs ->
    delivery e dest n h i (part :: rest)
      ([EvLog INFO (SendingPart i n dest); EvSendMessage dest part]
         ++ match rest with [] => [] | _ => [EvSleep 1] end ++ evs)
| delivery_failed h i part rest evs :
    send_message_raises e (h ++ [EvLog INFO (SendingPart i n dest)]) dest part
    = true ->
    delivery e dest n
      (h ++ [EvLog INFO (SendingPart i n dest); EvSendMessage dest part;
             EvLog ERROR (PartFailed i dest)])
      (i + 1) rest evs ->
    delivery e dest n h i (part :: rest)
      ([EvLog INFO (SendingPart i n dest); EvSendMessage dest part;
        EvLog ERROR (PartFailed i dest)] ++ evs).

(** Pacing as the specification words it: a pause of one time unit between
    any two consecutive sends. *)
Definition paced_between_sends (evs : list event) : Prop :=
  forall a b c d1 t1 d2 t2,
    evs = a ++ EvSendMessage d1 t1 :: b ++ EvSendMessage d2 t2 :: c ->
    In (EvSleep 1) b.

(** * Concrete inputs used below *)

Definition letters (c : char) (n : nat) : pystr := repeat c n.

(** 4001 characters, the first of them the only newline. *)
Definition newline_first_text : pystr := newline :: letters 97%N 4000.

(** 5001 characters with one newline after the first 2000. *)
Definition two_paragraph_text : pystr :=
  letters 97%N 2000 ++ newline :: letters 98%N 3000.

(** An outside world in which every send succeeds and nothing else answers. *)
Definition quiet_env : env :=
  {| http_get := fun _ => HttpRaised;
     openai_create := fun _ => CallRaised;
     anthropic_create := fun _ => CallRaised;
     send_message_raises := fun _ _ _ => false;
     reply_raises := fun _ => false |}.

(** An outside world in which the first send of a run raises. *)
Definition first_send_fails_env : env :=
  {| http_get := fun _ => HttpRaised;
     openai_create := fun _ => CallRaised;
     anthropic_create := fun _ => CallRaised;
     send_message_raises := fun h _ _ => match sends h with [] => true | _ => false end;
     reply_raises := fun _ => false |}.

(** A page of the news site: the headline, the marker comment, three
    paragraphs of the article, the divider, and a paragraph after it. *)
Definition article_paragraph (strings : list pystr) : node :=
  Elem (lit "p") (map lit ["text-19px"; "leading-loose"; "text-faseyha"]%string)
    (map Text strings).

Definition divider (children : list node) : node :=
  Elem (lit "div") (map lit ["hidden"; "lg:block"; "ml-10"]%string) children.

Definition headline : node :=
  Elem (lit "h1") (map lit ["text-40px"; "text-waheed"; "text-black-two"]%string)
    [Text (lit " Headline ")].

Definition sample_page : soup :=
  [headline;
   Comm (lit " article body ");
   article_paragraph [lit "First paragraph of the article."];
   article_paragraph [lit "Second paragraph."];
   article_paragraph [lit "Third paragraph."];
   divider [Text (lit "advertisement")];
   article_paragraph [lit "Related story."]].

(** The same article as a browser receives it: nested in [html] and [body],
    with a script in the head, line breaks between the tags, the paragraphs
    in a container of their own and a link inside the first paragraph. *)
Definition linked_paragraph : node :=
  Elem (lit "p") (map lit ["text-19px"; "leading-loose"; "text-faseyha"]%string)
    [Text (lit "The council ");
     Elem (lit "a") [] [Text (lit "met")];
     Text (lit " on Monday.")].

Definition nested_page : soup :=
  [Elem (lit "html") []
     [Elem (lit "head") []
        [Elem (lit "script") [] [Text (lit "var page = 1;")]];
      Text [newline];
      Elem (lit "body") []
        [headline;
         Text [newline; 32%N; 32%N];
         Comm (lit " article body ");
         Text [newline];
         Elem (lit "div") [lit "content"]
           [linked_paragraph; Text [newline];
            article_paragraph [lit "Second paragraph."]; Text [newline];
            article_paragraph [lit "Third paragraph."]; Text [newline];
            divider [Text (lit "advertisement")]; Text [newline];
            article_paragraph [lit "Related story."]]]]].

(** A page whose headline holds a script and nothing else. *)
Definition script_headline_page : soup :=
  [Elem (lit "h1") (map lit ["text-40px"; "text-waheed"]%string)
     [Elem (lit "script") [] [Text (lit "x")]]].

(** A page without marker comment and without [article]: a template and a
    paragraph in the body. *)
Definition template_page : soup :=
  [Elem (lit "html") []
     [Elem (lit "body") []
        [Elem (lit "template") [] [Elem (lit "p") [] [Text (lit "Card layout")]];
         Elem (lit "p") [] [Text (lit " Story text. ")]]]].

(** A page with a headline and too little text. *)
Definition short_page : soup :=
  [headline; Elem (lit "article") [] [Text (lit "Too short.")]].

Definition sample_url : pystr := lit "https://mihaaru.com/news/12345".

Definition sample_post : post_event :=
  {| post_chat_id := 100;
     post_text := Some (lit "New article: https://mihaaru.com/news/12345") |}.

Definition sample_command : command_event :=
  {| cmd_chat_id := 55;
     cmd_group1 := lit "https://mihaaru.com/news/12345 " |}.

Definition sample_config : config :=
  {| TRANSLATION_PROVIDER := lit "openai";
     OPENAI_API_KEY := Some (lit "sk-test");
     ANTHROPIC_API_KEY := None;
     OPENAI_MODEL_NAME := lit "gpt-3.5-turbo";
     ANTHROPIC_MODEL_NAME := lit "claude-3-haiku-20240307" |}.

(** The provider fails on the title request and answers the body request. *)
Definition title_fails_env : env :=
  {| http_get := fun _ => HttpResponse 200 sample_page;
     openai_create := fun r => if req_max_tokens r =? 1000 then CallRaised
                               else Content (lit "The council met on Monday.");
     anthropic_create := fun _ => CallRaised;
     send_message_raises := fun _ _ _ => false;
     reply_raises := fun _ => false |}.

(** The provider answers the title request and fails on the body request. *)
Definition body_fails_env : env :=
  {| http_get := fun _ => HttpResponse 200 sample_page;
     openai_create := fun r => if req_max_tokens r =? 1000
                               then Content (lit "Council meets")
                               else Malformed;
     anthropic_create := fun _ => CallRaised;
     send_message_raises := fun _ _ _ => false;
     reply_raises := fun _ => false |}.

Definition serving (page : soup) : env :=
  {| http_get := fun _ => HttpResponse 200 page;
     openai_create := fun _ => Content (lit "unused");
     anthropic_create := fun _ => CallRaised;
     send_message_raises := fun _ _ _ => false;
     reply_raises := fun _ => false |}.

Definition short_page_env : env :=
  {| http_get := fun _ => HttpResponse 200 short_page;
     openai_create := fun _ => Content (lit "unused");
     anthropic_create := fun _ => CallRaised;
     send_message_raises := fun _ _ _ => false;
     reply_raises := fun _ => false |}.

(** * Further vocabulary *)

(** The URLs fetched and the pauses taken, in the order of the trace. *)
Definition http_gets (evs : list event) : list pystr :=
  flat_map (fun ev => match ev with
                      | EvHttpGet url => [url]
                      | _ => []
                      end) evs.

Definition sleeps (evs : list event) : list Z :=
  flat_map (fun ev => match ev with
                      | EvSleep seconds => [seconds]
                      | _ => []
                      end) evs.

(** The value of [TRANSLATION_PROVIDER] that selects a provider. *)
Definition provider_name (p : provider) : pystr :=
  match p with
  | OpenAI => lit "openai"
  | Anthropic => lit "anthropic"
  end.

Definition model_name (cfg : config) (p : provider) : pystr :=
  match p with
  | OpenAI => OPENAI_MODEL_NAME cfg
  | Anthropic => ANTHROPIC_MODEL_NAME cfg
  end.

(** An outside world whose OpenAI endpoint answers with padded text. *)
Definition padded_answer_env : env :=
  {| http_get := fun _ => HttpResponse 200 sample_page;
     openai_create := fun _ => Content (lit "  Council meets  ");
     anthropic_create := fun _ => CallRaised;
     send_message_raises := fun _ _ _ => false;
     reply_raises := fun _ => false |}.

(** A configuration that selects OpenAI without a key. *)
Definition keyless_config : config :=
  {| TRANSLATION_PROVIDER := lit "openai";
     OPENAI_API_KEY := None;
     ANTHROPIC_API_KEY := Some (lit "sk-ant");
     OPENAI_MODEL_NAME := lit "gpt-3.5-turbo";
     ANTHROPIC_MODEL_NAME := lit "claude-3-haiku-20240307" |}.

(** No element named [name] in the node or below it. *)
Fixpoint free_of (name : pystr) (n : node) : bool :=
  match n with
  | Elem nm _ ch => negb (str_eqb nm name) && forallb (free_of name) ch
  | _ => true
  end.

(** A page with a script and a navigation bar around its article. *)
Definition cluttered_page : soup :=
  [Elem (lit "html") []
     [Elem (lit "body") []
        [Elem (lit "nav") [] [Text (lit "Home")];
         Elem (lit "article") []
           [Text (lit "Story text.");
            Elem (lit "script") [] [Text (lit "track()")]];
         Elem (lit "footer") [] [Text (lit "Contact")]]]].

Definition cluttered_page_env : env :=
  {| http_get := fun _ => HttpResponse 200 cluttered_page;
     openai_create := fun _ => CallRaised;
     anthropic_create := fun _ => CallRaised;
     send_message_raises := fun _ _ _ => false;
     reply_raises := fun _ => false |}.

Definition not_found_env : env :=
  {| http_get := fun _ => HttpResponse 404 sample_page;
     openai_create := fun _ => CallRaised;
     anthropic_create := fun _ => CallRaised;
     send_message_raises := fun _ _ _ => false;
     reply_raises := fun _ => false |}.

(** The HTML entity of one character of a URL, or the character itself. *)
Definition escape_char (c : char) : pystr :=
  if char_eqb c 38%N then lit "&amp;"
  else if char_eqb c 60%N then lit "&lt;"
  else if char_eqb c 62%N then lit "&gt;"
  else [c].

(** An outside world in which every send raises. *)
Definition no_send_env : env :=
  {| http_get := fun _ => HttpRaised;
     openai_create := fun _ => CallRaised;
     anthropic_create := fun _ => CallRaised;
     send_message_raises := fun _ _ _ => true;
     reply_raises := fun _ => false |}.

(** 9000 characters without a newline. *)
Definition unbroken_text : pystr := letters 97%N (Z.to_nat 9000).

(** Events that send nothing, reply nothing, fetch nothing and call a
    provider at most [k] times. *)
Definition quiet_calls (k : nat) (evs : list event) : Prop :=
  sends evs = [] /\ replies evs = [] /\ http_gets evs = []
  /\ (length (provider_calls evs) <= k)%nat.

(** ** [main]: the configuration check *)

Record telegram_settings := {
  TELEGRAM_API_ID : option pystr;
  TELEGRAM_API_HASH : option pystr;
  MIHAARU_CHANNEL_ENV : option pystr;
  TARGET_CHANNEL_ENV : option pystr
}.

(** [all(common_vars)] *)
Definition common_vars_ok (s : telegram_settings) : bool :=
  truthy (TELEGRAM_API_ID s) && truthy (TELEGRAM_API_HASH s)
  && truthy (MIHAARU_CHANNEL_ENV s) && truthy (TARGET_CHANNEL_ENV s).

Definition provider_specific_vars_ok (cfg : config) : bool :=
  if str_eqb (TRANSLATION_PROVIDER cfg) (lit "openai")
     && truthy (OPENAI_API_KEY cfg) then true
  else if str_eqb (TRANSLATION_PROVIDER cfg) (lit "anthropic")
          && truthy (ANTHROPIC_API_KEY cfg) then true
  else false.

(** The sentences of [missing_vars_details]. *)
Inductive config_detail :=
| CoreVariablesMissing
| OpenAIKeyMissing
| AnthropicKeyMissing
| InvalidProvider (provider : pystr).

Definition missing_vars_details (s : telegram_settings) (cfg : config)
  : list config_detail :=
  let details := [] in
  let details :=
    if negb (common_vars_ok s) then details ++ [CoreVariablesMissing]
    else details in
  if str_eqb (TRANSLATION_PROVIDER cfg) (lit "openai")
     && negb (truthy (OPENAI_API_KEY cfg)) then
    details ++ [OpenAIKeyMissing]
  else if str_eqb (TRANSLATION_PROVIDER cfg) (lit "anthropic")
          && negb (truthy (ANTHROPIC_API_KEY cfg)) then
    details ++ [AnthropicKeyMissing]
  else if negb (str_eqb (TRANSLATION_PROVIDER cfg) (lit "openai")
                || str_eqb (TRANSLATION_PROVIDER cfg) (lit "anthropic")) then
    details ++ [InvalidProvider (TRANSLATION_PROVIDER cfg)]
  else details.

(** The check at the head of [main]: [Some details] when it logs the
    critical line and returns, [None] when it goes on to connect. *)
Definition configuration_check (s : telegram_settings) (cfg : config)
  : option (list config_detail) :=
  if negb (common_vars_ok s) || negb (provider_specific_vars_ok cfg) then
    Some (missing_vars_details s cfg)
  else None.

Definition sample_settings : telegram_settings :=
  {| TELEGRAM_API_ID := Some (lit "12345");
     TELEGRAM_API_HASH := Some (lit "0123456789abcdef");
     MIHAARU_CHANNEL_ENV := Some (lit "-1001234567890");
     TARGET_CHANNEL_ENV := Some (lit "mytranslations") |}.

(** ** [get_entity_safely] *)

Inductive lookup_key :=
| ById (n : Z)
| ByName (s : pystr).

Inductive lookup_outcome :=
| Found (ent : entity)
| LookupValueError          (* [client.get_entity] raised [ValueError] *)
| LookupError.              (* it raised another exception *)

Inductive startup_event :=
| EvGetEntity (key : lookup_key)
| EvLogEntityError (identifier : pystr).

Definition startswith_minus (s : pystr) : bool :=
  match s with
  | c :: _ => char_eqb c 45%N
  | [] => false
  end.

Section GetEntity.

(** [int(s)], [None] when it raises [ValueError]; [s.isdigit()]; and what
    [client.get_entity] does with a key. *)
Variable int_of_str : pystr -> option Z.
Variable isdigit : pystr -> bool.
Variable get_entity : lookup_key -> lookup_outcome.

(** [return await client.get_entity(entity_identifier)] under the outer
    [try], after the events [evs]. *)
Definition lookup_by_name (s : pystr) (evs : list startup_event)
  : option entity * list startup_event :=
  match get_entity (ByName s) with
  | Found ent => (Some ent, evs ++ [EvGetEntity (ByName s)])
  | LookupValueError | LookupError =>
      (None, evs ++ [EvGetEntity (ByName s); EvLogEntityError s])
  end.

Definition get_entity_safely (entity_identifier : option pystr)
  : option entity * list startup_event :=
  if negb (truthy entity_identifier) then (None, [])
  else
    let s := text_of entity_identifier in
    if startswith_minus s || isdigit s then
      match int_of_str s with
      | None => lookup_by_name s []
      | Some n =>
          match get_entity (ById n) with
          | Found ent => (Some ent, [EvGetEntity (ById n)])
          | LookupValueError => lookup_by_name s [EvGetEntity (ById n)]
          | LookupError =>
              (None, [EvGetEntity (ById n); EvLogEntityError s])
          end
      end
    else lookup_by_name s [].

End GetEntity.

Definition lookups (evs : list startup_event) : list lookup_key :=
  flat_map (fun ev => match ev with
                      | EvGetEntity key => [key]
                      | _ => []
                      end) evs.

Definition entity_errors (evs : list startup_event) : list pystr :=
  flat_map (fun ev => match ev with
                      | EvLogEntityError s => [s]
                      | _ => []
                      end) evs.

(** * Properties *)

(** ** Lengths and slices *)

Lemma MAX_MESSAGE_LENGTH_eq : MAX_MESSAGE_LENGTH = 4000.
Proof. reflexivity. Qed.

Ltac max_lia := pose proof MAX_MESSAGE_LENGTH_eq; lia.

Lemma len_nonneg (s : pystr) : 0 <= len s.
Proof. unfold len. lia. Qed.

Lemma len_app (a b : pystr) : len (a ++ b) = len a + len b.
Proof. unfold len. rewrite length_app. lia. Qed.

Lemma len_cons (c : char) (s : pystr) : len (c :: s) = 1 + len s.
Proof. unfold len. simpl length. lia. Qed.

Lemma len_nil_inv (s : pystr) : len s = 0 -> s = [].
Proof. destruct s; [reflexivity | rewrite len_cons; pose proof (len_nonneg s); lia]. Qed.

Lemma len_slice_from (text : pystr) (pos : Z) :
  0 <= pos <= len text -> len (slice_from text pos) = len text - pos.
Proof. intros H. unfold slice_from, len in *. rewrite length_skipn. lia. Qed.

Lemma slice_from_add (text : pystr) (pos k : Z) :
  0 <= pos -> 0 <= k ->
  slice_from text (pos + k) = skipn (Z.to_nat k) (slice_from text pos).
Proof.
  intros Hp Hk. unfold slice_from. rewrite skipn_skipn. f_equal. lia.
Qed.

Lemma firstn_len_app (a b : pystr) : firstn (Z.to_nat (len a)) (a ++ b) = a.
Proof.
  unfold len. rewrite Nat2Z.id, firstn_app, Nat.sub_diag, firstn_all. simpl.
  apply app_nil_r.
Qed.

Lemma skipn_len_app (a b : pystr) : skipn (Z.to_nat (len a)) (a ++ b) = b.
Proof.
  unfold len. rewrite Nat2Z.id, skipn_app, Nat.sub_diag, skipn_all. reflexivity.
Qed.

(** ** The string operations on small inputs *)

Example rfind_whole :
  rfind (lit "ab" ++ [newline] ++ lit "cd" ++ [newline] ++ lit "ef") newline 0 8 = 5.
Proof. reflexivity. Qed.

Example rfind_end_is_exclusive :
  rfind (lit "ab" ++ [newline] ++ lit "cd" ++ [newline] ++ lit "ef") newline 0 5 = 2.
Proof. reflexivity. Qed.

Example rfind_from_start :
  rfind (lit "ab" ++ [newline] ++ lit "cd" ++ [newline] ++ lit "ef") newline 6 8 = -1.
Proof. reflexivity. Qed.

Example strip_both_ends :
  strip (lit "  a b " ++ [newline]) = lit "a b".
Proof. reflexivity. Qed.

Example collapse_three_newlines :
  collapse_blank_runs (lit "a " ++ [newline; newline; newline] ++ lit " b")
  = lit "a" ++ [newline; newline] ++ lit "b".
Proof. reflexivity. Qed.

Example collapse_newlines_apart :
  collapse_blank_runs
    (lit "a" ++ [newline] ++ lit " " ++ [newline; 9%N; newline] ++ lit "b")
  = lit "a" ++ [newline; newline] ++ lit "b".
Proof. reflexivity. Qed.

Example collapse_keeps_two_newlines :
  collapse_blank_runs (lit "a " ++ [newline; newline] ++ lit "b")
  = lit "a " ++ [newline; newline] ++ lit "b".
Proof. reflexivity. Qed.

Example first_url_in_text :
  first_url (lit "httpx see https://mihaaru.com/news/1?a=b now http://other")
  = Some (lit "https://mihaaru.com/news/1?a=b").
Proof. reflexivity. Qed.

Example first_url_needs_a_host : first_url (lit "see http:// here") = None.
Proof. reflexivity. Qed.

Example lower_marker : lower (lit " Article BODY ") = lit " article body ".
Proof. reflexivity. Qed.

Example format_url_escapes :
  format_url (lit "https://x/?a=1&b=<2>") = lit "https://x/?a=1&amp;b=&lt;2&gt;".
Proof. reflexivity. Qed.

Example compose_with_title :
  compose_message (Some (lit "Title")) (lit "Body") (lit "https://x/?a&b")
  = lit "<b>Title</b>" ++ [newline; newline] ++ lit "Body" ++ [newline; newline]
      ++ lit "<a href=" ++ quote ++ lit "https://x/?a&amp;b" ++ quote
      ++ lit ">Original Article</a>".
Proof. reflexivity. Qed.

(** ** [rfind] finds the last occurrence *)

Lemma last_index_spec (c : char) (l : pystr) :
  forall i found,
    (Forall (fun x => x <> c) l /\ last_index c l i found = found)
    \/ (exists l1 l2, l = l1 ++ c :: l2 /\ Forall (fun x => x <> c) l2
                      /\ last_index c l i found = i + len l1).
Proof.
  induction l as [|x l IH]; intros i found; simpl.
  - left. split; [constructor | reflexivity].
  - destruct (IH (i + 1) (if char_eqb x c then i else found))
      as [[Hno Heq] | (l1 & l2 & Hl & Hno & Heq)].
    + unfold char_eqb in *. destruct (N.eqb_spec x c) as [-> | Hne].
      * right. exists [], l. rewrite Heq. repeat split; auto. cbn. lia.
      * left. split; [constructor; assumption | assumption].
    + right. exists (x :: l1), l2. subst l. rewrite Heq, len_cons.
      repeat split; auto. lia.
Qed.

(** ** One iteration of the splitting loop, seen on the text that remains *)

Lemma loop_body_last (text : pystr) (parts : list pystr) (pos : Z) :
  len text <= pos + MAX_MESSAGE_LENGTH ->
  loop_body text parts pos = Break (parts ++ [slice_from text pos]).
Proof.
  intros H. unfold loop_body.
  destruct (Z.geb_spec (pos + MAX_MESSAGE_LENGTH) (len text)); [reflexivity | lia].
Qed.

Lemma loop_body_continue (text : pystr) (parts : list pystr) (pos : Z) :
  0 <= pos -> pos + MAX_MESSAGE_LENGTH < len text ->
  exists p rest,
    slice_from text pos = (if Z.eqb (len p) MAX_MESSAGE_LENGTH then p ++ rest
                           else p ++ newline :: rest)
    /\ 0 < len p <= MAX_MESSAGE_LENGTH
    /\ rest <> []
    /\ no_newline (if Z.eqb (len p) MAX_MESSAGE_LENGTH then tl p
                   else firstn (Z.to_nat (MAX_MESSAGE_LENGTH - len p - 1)) rest)
    /\ exists pos', loop_body text parts pos = Continue (parts ++ [p]) pos'
                    /\ pos < pos' <= len text
                    /\ slice_from text pos' = rest.
Proof.
  intros Hpos Hlt.
  pose proof (eq_refl : MAX_MESSAGE_LENGTH = 4000) as HM.
  set (s := slice_from text pos).
  assert (Hs : len s = len text - pos) by (apply len_slice_from; lia).
  set (w := firstn (Z.to_nat MAX_MESSAGE_LENGTH) s).
  set (r := skipn (Z.to_nat MAX_MESSAGE_LENGTH) s).
  assert (Hsplit : s = w ++ r) by (symmetry; apply firstn_skipn).
  assert (Hw : len w = MAX_MESSAGE_LENGTH).
  { unfold w, len in *. rewrite length_firstn. lia. }
  assert (Hr : r <> []).
  { intros E. rewrite E, app_nil_r in Hsplit. rewrite Hsplit in Hs. lia. }
  assert (Hrf : rfind text newline pos (pos + MAX_MESSAGE_LENGTH)
                = last_index newline w pos (-1)).
  { unfold rfind, slice, w, s, slice_from. do 3 f_equal. lia. }
  assert (Hcut : slice text pos (pos + MAX_MESSAGE_LENGTH) = w).
  { unfold slice, w, s, slice_from. do 2 f_equal. lia. }
  assert (Hnext : slice_from text (pos + MAX_MESSAGE_LENGTH) = r).
  { rewrite slice_from_add by lia. reflexivity. }
  unfold loop_body.
  destruct (Z.geb_spec (pos + MAX_MESSAGE_LENGTH) (len text)) as [Hge | _]; [lia |].
  rewrite Hrf, Hcut.
  destruct (last_index_spec newline w pos (-1))
    as [[Hno Heq] | (l1 & l2 & Hl & Hno & Heq)]; rewrite Heq.
  - (* no newline in the window *)
    exists w, r. rewrite Hw, Z.eqb_refl. repeat split; auto; try lia.
    + destruct w; [constructor | inversion Hno; assumption].
    + exists (pos + MAX_MESSAGE_LENGTH). repeat split; auto; lia.
  - assert (Hlen : len l1 + 1 + len l2 = MAX_MESSAGE_LENGTH).
    { rewrite <- Hw, Hl, len_app, len_cons. lia. }
    pose proof (len_nonneg l1) as Hl1. pose proof (len_nonneg l2) as Hl2.
    destruct (Z.eqb_spec (pos + len l1) (-1)) as [E | _]; [lia |].
    destruct (Z.gtb_spec (pos + len l1) pos) as [Hgt | Hle]; cbn [negb andb].
    + (* a newline strictly after the start of the window *)
      exists l1, (l2 ++ r).
      destruct (Z.eqb_spec (len l1) MAX_MESSAGE_LENGTH) as [E | _]; [lia |].
      repeat split; try lia.
      * fold s. rewrite Hsplit, Hl, <- app_assoc. reflexivity.
      * intros E. apply app_eq_nil in E. tauto.
      * replace (MAX_MESSAGE_LENGTH - len l1 - 1) with (len l2) by lia.
        rewrite firstn_len_app. assumption.
      * exists (pos + len l1 + 1). repeat split; try lia.
        -- do 3 f_equal. unfold slice. fold (slice_from text pos). fold s.
           rewrite Hsplit, Hl, <- app_assoc.
           replace (pos + len l1 - pos) with (len l1) by lia.
           apply firstn_len_app.
        -- replace (pos + len l1 + 1) with (pos + (len l1 + 1)) by lia.
           rewrite slice_from_add by lia. fold s.
           rewrite Hsplit, Hl, <- app_assoc.
           replace (l1 ++ (newline :: l2) ++ r)
             with ((l1 ++ [newline]) ++ l2 ++ r)
             by (rewrite <- app_assoc; reflexivity).
           replace (len l1 + 1) with (len (l1 ++ [newline]))
             by (rewrite len_app; reflexivity).
           apply skipn_len_app.
    + (* the only newline of the window is its first character *)
      assert (l1 = []) by (apply len_nil_inv; lia). subst l1. simpl in Hl.
      exists w, r. rewrite Hw, Z.eqb_refl. repeat split; auto; try lia.
      * rewrite Hl. assumption.
      * exists (pos + MAX_MESSAGE_LENGTH). repeat split; auto; lia.
Qed.

(** ** The loop as a whole *)

Lemma split_loop_chunked (fuel : nat) :
  forall text acc pos,
    0 <= pos < len text ->
    (Z.to_nat (len text - pos) < fuel)%nat ->
    exists parts,
      split_loop fuel text acc pos = Some (acc ++ parts)
      /\ chunked (slice_from text pos) parts.
Proof.
  pose proof (eq_refl : MAX_MESSAGE_LENGTH = 4000) as HM.
  induction fuel as [|fuel IH]; intros text acc pos Hpos Hfuel; [lia |].
  cbn [split_loop].
  destruct (Z.ltb_spec pos (len text)) as [_ | ?]; [| lia].
  destruct (Z_le_gt_dec (len text) (pos + MAX_MESSAGE_LENGTH)) as [Hlast | Hmore].
  - rewrite loop_body_last by assumption.
    exists [slice_from text pos]. split; [reflexivity |].
    apply chunked_last. rewrite len_slice_from; lia.
  - destruct (loop_body_continue text acc pos) as
      (p & rest & Hs & Hp & Hrest & Hnl & pos' & Hbody & Hpos' & Hnext); try lia.
    rewrite Hbody.
    assert (Hlen : len rest = len text - pos')
      by (rewrite <- Hnext; apply len_slice_from; lia).
    assert (pos' < len text).
    { destruct rest; [congruence |]. rewrite len_cons in Hlen.
      pose proof (len_nonneg rest). lia. }
    destruct (IH text (acc ++ [p]) pos') as (parts & Hrun & Hch); try lia.
    exists (p :: parts). split.
    + rewrite Hrun, <- app_assoc. reflexivity.
    + rewrite Hnext in Hch. rewrite Hs.
      assert (Hs' : len (slice_from text pos) = len text - pos)
        by (apply len_slice_from; lia).
      destruct (Z.eqb_spec (len p) MAX_MESSAGE_LENGTH) as [E | NE].
      * apply chunked_cut; assumption.
      * apply chunked_newline; try assumption; [| lia].
        rewrite <- Hs, Hs'. lia.
Qed.

Lemma split_loop_more_fuel (fuel : nat) :
  forall text acc pos parts,
    split_loop fuel text acc pos = Some parts ->
    forall fuel', (fuel <= fuel')%nat ->
                  split_loop fuel' text acc pos = Some parts.
Proof.
  induction fuel as [|fuel IH]; intros text acc pos parts H fuel' Hle;
    [discriminate |].
  destruct fuel' as [|fuel']; [lia |].
  cbn [split_loop] in *.
  destruct (pos <? len text); [| assumption].
  destruct (loop_body text acc pos); [assumption |].
  apply IH with (1 := H). lia.
Qed.

(** The loop ends within the iterations that [split_message] allows, and
    what it returns is described by [chunked]. *)
Lemma split_message_chunked (text : pystr) :
  text <> [] ->
  exists parts, split_message text = Some parts /\ chunked text parts.
Proof.
  intros Hne. unfold split_message.
  assert (0 < len text).
  { destruct text; [congruence |]. rewrite len_cons.
    pose proof (len_nonneg text). lia. }
  destruct (split_loop_chunked (S (length text)) text [] 0) as (parts & Hrun & Hch).
  - lia.
  - unfold len. lia.
  - exists parts. split; assumption.
Qed.

Lemma split_message_empty : split_message [] = Some [].
Proof. reflexivity. Qed.

(** ** What [chunked] implies *)

Lemma chunked_bounded (text : pystr) (parts : list pystr) :
  chunked text parts ->
  Forall (fun p => 0 < len p <= MAX_MESSAGE_LENGTH) parts.
Proof.
  induction 1 as [rest ? | p rest parts ? ? ? ? IH | p rest parts ? ? ? ? IH].
  - apply Forall_cons; [assumption | apply Forall_nil].
  - apply Forall_cons; [lia | assumption].
  - apply Forall_cons; [max_lia | assumption].
Qed.

Lemma chunked_filter (keep : char -> bool) (text : pystr) (parts : list pystr) :
  keep newline = false ->
  chunked text parts ->
  filter keep (concat parts) = filter keep text.
Proof.
  intros Hk. induction 1 as [rest ? | p rest parts ? ? ? ? IH | p rest parts ? ? ? ? IH].
  - simpl. rewrite app_nil_r. reflexivity.
  - simpl. rewrite !filter_app. simpl. rewrite Hk, IH. reflexivity.
  - simpl. rewrite !filter_app, IH. reflexivity.
Qed.

Lemma chunked_two_parts (text : pystr) (parts : list pystr) :
  chunked text parts -> MAX_MESSAGE_LENGTH < len text ->
  (2 <= length parts)%nat.
Proof.
  intros H Hlen. destruct H as [rest ? | p rest parts ? ? ? Hr | p rest parts ? ? ? Hr].
  - lia.
  - destruct Hr; simpl; lia.
  - destruct Hr; simpl; lia.
Qed.

(** ** Claims about splitting *)

(** C10: for every input text the splitting loop terminates -- within the
    iterations [split_message] allows, and with the same result under any
    larger bound -- every part it emits is non-empty, and every iteration
    that continues does so at a strictly greater position, after a newline
    split as well as after a hard cut. *)
Theorem C10_split_loop_terminates (text : pystr) :
  (exists parts,
      split_message text = Some parts
      /\ (forall fuel, (length text < fuel)%nat ->
                       split_loop fuel text [] 0 = Some parts)
      /\ Forall (fun p => p <> []) parts)
  /\ (forall acc pos acc' pos',
         loop_body text acc pos = Continue acc' pos' -> pos < pos').
Proof.
  split.
  - destruct text as [|c text].
    + exists []. split; [reflexivity |]. split; [| constructor].
      intros [|fuel] H; [simpl in H; lia | reflexivity].
    + destruct (split_message_chunked (c :: text)) as (parts & Hrun & Hch);
        [discriminate |].
      exists parts. split; [assumption |]. split.
      * intros fuel Hfuel. apply split_loop_more_fuel with (1 := Hrun). lia.
      * apply chunked_bounded in Hch.
        eapply Forall_impl; [| exact Hch].
        intros p Hp ->. cbn in Hp. lia.
  - intros acc pos acc' pos'. unfold loop_body.
    destruct (pos + MAX_MESSAGE_LENGTH >=? len text); [discriminate |].
    destruct (Z.gtb_spec (rfind text newline pos (pos + MAX_MESSAGE_LENGTH)) pos);
      rewrite ?andb_false_r; [destruct (negb _); cbn [andb] |];
      intros [= _ <-]; max_lia.
Qed.

(** C2, as the code has it: for every text longer than 4000 characters the
    loop yields a sequence of parts, each at most 4000 characters long, built
    greedily as [chunked] says -- a part ends before the last newline of the
    current 4000-character window when that newline lies after the window's
    first character, and is the whole window otherwise; the last part is what
    remains once at most 4000 characters are left -- and the parts put
    together hold the text's non-whitespace characters in order. *)
Theorem C2_long_text_chunks (text : pystr) :
  MAX_MESSAGE_LENGTH < len text ->
  exists parts,
    split_message text = Some parts
    /\ Forall (fun p => len p <= MAX_MESSAGE_LENGTH) parts
    /\ chunked text parts
    /\ filter non_space (concat parts) = filter non_space text.
Proof.
  intros Hlen.
  destruct (split_message_chunked text) as (parts & Hrun & Hch).
  { intros ->. cbn in Hlen. max_lia. }
  exists parts. repeat split; try assumption.
  - apply chunked_bounded in Hch. eapply Forall_impl; [| exact Hch].
    cbn. intros; lia.
  - apply chunked_filter; [reflexivity | assumption].
Qed.

(** The theorem at a text of 5001 characters with one newline. *)
Lemma C2_long_text_chunks_witness :
  MAX_MESSAGE_LENGTH < len two_paragraph_text
  /\ exists parts,
      split_message two_paragraph_text = Some parts
      /\ Forall (fun p => len p <= MAX_MESSAGE_LENGTH) parts
      /\ chunked two_paragraph_text parts
      /\ filter non_space (concat parts) = filter non_space two_paragraph_text.
Proof.
  split; [vm_compute; reflexivity |].
  apply (C2_long_text_chunks two_paragraph_text). vm_compute. reflexivity.
Defined.

Example two_paragraph_text_parts :
  split_message two_paragraph_text = Some [letters 97%N 2000; letters 98%N 3000].
Proof. vm_compute. reflexivity. Qed.

Lemma specified_first_part (text p : pystr) (parts : list pystr) :
  chunked_as_specified text (p :: parts) -> parts <> [] ->
  len p < MAX_MESSAGE_LENGTH \/ no_newline p.
Proof.
  intros H Hparts. inversion H; subst; [congruence | left; lia | right; assumption].
Qed.

(** C2, as the specification words it, fails: in [newline_first_text] the
    first window holds a newline (its first character), yet the loop cuts at
    the 4000-character boundary instead of breaking at that newline. *)
Lemma C2_newline_at_window_start :
  MAX_MESSAGE_LENGTH < len newline_first_text
  /\ split_message newline_first_text
     = Some [newline :: letters 97%N 3999; letters 97%N 1]
  /\ ~ chunked_as_specified newline_first_text
         [newline :: letters 97%N 3999; letters 97%N 1].
Proof.
  split; [vm_compute; reflexivity |].
  split; [vm_compute; reflexivity |].
  assert (E : len (newline :: letters 97%N 3999) = 4000)
    by (vm_compute; reflexivity).
  intros H. apply specified_first_part in H; [| discriminate].
  destruct H as [Hlt | Hno].
  - rewrite E in Hlt. max_lia.
  - inversion Hno as [| ? ? Hhead _]. apply Hhead. reflexivity.
Qed.

(** ** Delivery *)

Lemma sends_app (a b : list event) : sends (a ++ b) = sends a ++ sends b.
Proof. unfold sends. apply flat_map_app. Qed.

Lemma send_parts_delivery (e : env) (dest : entity) (n : Z) (parts : list pystr) :
  forall i h,
    n = i + Z.of_nat (length parts) ->
    exists evs,
      send_parts e dest n i parts h = (Ok tt, h ++ evs)
      /\ delivery e dest n h (i + 1) parts evs
      /\ sends evs = map (pair dest) parts.
Proof.
  induction parts as [|part rest IH]; intros i h Hn.
  - exists []. rewrite app_nil_r. repeat split; constructor.
  - cbn [send_parts].
    unfold bind, try_except, log, sleep, emit, send_message, ret.
    rewrite <- app_assoc. cbn [app].
    assert (Hn' : n = (i + 1) + Z.of_nat (length rest)) by (cbn [length] in Hn; lia).
    destruct (send_message_raises e (h ++ [EvLog INFO (SendingPart (i + 1) n dest)])
                dest part) eqn:Hraise.
    + destruct (IH (i + 1)
                  (h ++ [EvLog INFO (SendingPart (i + 1) n dest);
                         EvSendMessage dest part;
                         EvLog ERROR (PartFailed (i + 1) dest)]) Hn')
        as (evs & Hrun & Hdel & Hsends).
      exists ([EvLog INFO (SendingPart (i + 1) n dest); EvSendMessage dest part;
               EvLog ERROR (PartFailed (i + 1) dest)] ++ evs).
      rewrite <- app_assoc in Hrun. rewrite <- ?app_assoc. cbn [app] in *.
      repeat split.
      * exact Hrun.
      * apply delivery_failed; assumption.
      * unfold sends in *. cbn [flat_map app map]. rewrite Hsends. reflexivity.
    + destruct rest as [|next rest].
      * destruct (Z.ltb_spec i (n - 1)) as [Hlt | _];
          [cbn [length] in Hn; lia |].
        exists [EvLog INFO (SendingPart (i + 1) n dest); EvSendMessage dest part].
        cbn. repeat split.
        apply (delivery_sent e dest n h (i + 1) part [] []); [assumption |].
        constructor.
      * destruct (Z.ltb_spec i (n - 1)) as [_ | Hge];
          [| cbn [length] in Hn; lia].
        destruct (IH (i + 1)
                    (h ++ [EvLog INFO (SendingPart (i + 1) n dest);
                           EvSendMessage dest part; EvSleep 1]) Hn')
          as (evs & Hrun & Hdel & Hsends).
        exists ([EvLog INFO (SendingPart (i + 1) n dest); EvSendMessage dest part;
                 EvSleep 1] ++ evs).
        rewrite <- app_assoc in Hrun. cbn beta iota.
        rewrite <- ?app_assoc. cbn [app] in *.
        repeat split.
        -- exact Hrun.
        -- apply (delivery_sent e dest n h (i + 1) part (next :: rest) evs);
             assumption.
        -- unfold sends in *. cbn [flat_map app map]. rewrite Hsends. reflexivity.
Qed.

(** C8: a text of at most 4000 characters is delivered as exactly one
    message, the text itself, unchanged; a failure of that send is logged and
    not raised. *)
Theorem C8_short_text_one_message (e : env) (dest : entity) (text : pystr)
  (tr : trace) :
  len text <= MAX_MESSAGE_LENGTH ->
  send_telegram_message_telethon e dest text tr
  = (Ok tt,
     tr ++ EvSendMessage dest text
        :: (if send_message_raises e tr dest text
            then [EvLog ERROR (SendFailed dest)] else [])).
Proof.
  intros Hlen. unfold send_telegram_message_telethon.
  destruct (Z.leb_spec (len text) MAX_MESSAGE_LENGTH) as [_ | ?]; [| lia].
  unfold try_except, send_message, log, emit.
  destruct (send_message_raises e tr dest text).
  - rewrite <- app_assoc. reflexivity.
  - reflexivity.
Qed.

(** The theorem at a ten-character text. *)
Lemma C8_short_text_one_message_witness :
  len (lit "Male' City") <= MAX_MESSAGE_LENGTH
  /\ send_telegram_message_telethon quiet_env 7 (lit "Male' City") []
     = (Ok tt, [EvSendMessage 7 (lit "Male' City")]).
Proof.
  split; [vm_compute; discriminate |].
  apply (C8_short_text_one_message quiet_env 7 (lit "Male' City") []).
  vm_compute. discriminate.
Defined.

(** C6, as the code has it: a text longer than 4000 characters is split into
    at least two parts, all of them are attempted, in their order, to the
    same destination; a send that raises is caught and logged and the next
    part is attempted all the same (the whole delivery returns normally);
    after every send that succeeds, except that of the last part, a pause of
    one second follows.  After a send that raises there is no pause. *)
Theorem C6_parts_in_order_failures_isolated (e : env) (dest : entity)
  (text : pystr) (tr : trace) :
  MAX_MESSAGE_LENGTH < len text ->
  exists parts evs,
    split_message text = Some parts
    /\ (2 <= length parts)%nat
    /\ send_telegram_message_telethon e dest text tr
       = (Ok tt, tr ++ EvLog INFO (MessageTooLong (len text)) :: evs)
    /\ sends evs = map (pair dest) parts
    /\ delivery e dest (Z.of_nat (length parts))
         (tr ++ [EvLog INFO (MessageTooLong (len text))]) 1 parts evs.
Proof.
  intros Hlen.
  destruct (split_message_chunked text) as (parts & Hrun & Hch).
  { intros ->. cbn in Hlen. max_lia. }
  destruct (send_parts_delivery e dest (Z.of_nat (length parts)) parts 0
              (tr ++ [EvLog INFO (MessageTooLong (len text))]))
    as (evs & Hsend & Hdel & Hsends); [lia |].
  exists parts, evs. repeat split; try assumption.
  - apply chunked_two_parts with (1 := Hch). assumption.
  - unfold send_telegram_message_telethon.
    destruct (Z.leb_spec (len text) MAX_MESSAGE_LENGTH) as [? | _]; [lia |].
    unfold message_parts. rewrite Hrun.
    unfold bind, log, emit. rewrite Hsend, <- app_assoc. reflexivity.
Qed.

(** The theorem at a two-part text whose first send raises. *)
Lemma C6_parts_in_order_failures_isolated_witness :
  MAX_MESSAGE_LENGTH < len two_paragraph_text
  /\ exists parts evs,
      split_message two_paragraph_text = Some parts
      /\ (2 <= length parts)%nat
      /\ send_telegram_message_telethon first_send_fails_env 7
           two_paragraph_text []
         = (Ok tt, [] ++ EvLog INFO (MessageTooLong (len two_paragraph_text)) :: evs)
      /\ sends evs = map (pair 7) parts
      /\ delivery first_send_fails_env 7 (Z.of_nat (length parts))
           ([] ++ [EvLog INFO (MessageTooLong (len two_paragraph_text))]) 1
           parts evs.
Proof.
  split; [vm_compute; reflexivity |].
  apply (C6_parts_in_order_failures_isolated first_send_fails_env 7
           two_paragraph_text []).
  vm_compute. reflexivity.
Defined.

(** C6, as the specification words it, fails: when the send of the first of
    two parts raises, the second part is attempted with no pause between the
    two sends. *)
Lemma C6_no_pause_after_failed_send :
  MAX_MESSAGE_LENGTH < len two_paragraph_text
  /\ snd (send_telegram_message_telethon first_send_fails_env 7
            two_paragraph_text [])
     = [EvLog INFO (MessageTooLong 5001);
        EvLog INFO (SendingPart 1 2 7);
        EvSendMessage 7 (letters 97%N 2000);
        EvLog ERROR (PartFailed 1 7);
        EvLog INFO (SendingPart 2 2 7);
        EvSendMessage 7 (letters 98%N 3000)]
  /\ ~ paced_between_sends
         (snd (send_telegram_message_telethon first_send_fails_env 7
                 two_paragraph_text [])).
Proof.
  assert (E : snd (send_telegram_message_telethon first_send_fails_env 7
                     two_paragraph_text [])
              = [EvLog INFO (MessageTooLong 5001);
                 EvLog INFO (SendingPart 1 2 7);
                 EvSendMessage 7 (letters 97%N 2000);
                 EvLog ERROR (PartFailed 1 7);
                 EvLog INFO (SendingPart 2 2 7);
                 EvSendMessage 7 (letters 98%N 3000)])
    by (vm_compute; reflexivity).
  split; [vm_compute; reflexivity |].
  split; [exact E |].
  rewrite E. intros H.
  specialize (H [EvLog INFO (MessageTooLong 5001); EvLog INFO (SendingPart 1 2 7)]
                [EvLog ERROR (PartFailed 1 7); EvLog INFO (SendingPart 2 2 7)]
                [] 7 (letters 97%N 2000) 7 (letters 98%N 3000) eq_refl).
  destruct H as [H | [H | []]]; discriminate H.
Qed.

(** ** Translation *)

(** C9: [translate_text] called with an absent or empty text returns [None]
    and leaves the trace as it was -- no provider is called, nothing is
    logged -- whatever the role flag and the configuration. *)
Theorem C9_empty_input_no_provider_call (cfg : config) (e : env)
  (is_title : bool) (tr : trace) :
  translate_text cfg e None is_title tr = (Ok None, tr)
  /\ translate_text cfg e (Some []) is_title tr = (Ok None, tr).
Proof. split; reflexivity. Qed.

(** ** Computations that do not look at the history *)

Ltac run_monad :=
  unfold try_except, call_provider, bind, log, sleep, emit, raise, ret, reply.

Ltac split_cases :=
  repeat match goal with
    | |- context [if ?b then _ else _] => destruct b
    | |- context [match ?x with CallRaised => _ | Malformed => _ | Content _ => _ end] =>
        destruct x
    | |- context [match ?x with HttpRaised => _ | HttpResponse _ _ => _ end] =>
        destruct x
    | |- context [match ?x with Some _ => _ | None => _ end] => destruct x
    end.

Lemma translate_text_run (cfg : config) (e : env) (t : option pystr)
  (is_title : bool) (tr : trace) :
  translate_text cfg e t is_title tr
  = (value_of (translate_text cfg e t is_title),
     tr ++ events_of (translate_text cfg e t is_title)).
Proof.
  unfold value_of, events_of, translate_text.
  destruct t as [[|c t]|]; run_monad; cbn [fst snd app]; rewrite ?app_nil_r;
    try reflexivity.
  split_cases; cbn [fst snd app]; rewrite <- ?app_assoc; reflexivity.
Qed.

Lemma translate_text_quiet (cfg : config) (e : env) (t : option pystr)
  (is_title : bool) :
  (exists v, value_of (translate_text cfg e t is_title) = Ok v)
  /\ sends (events_of (translate_text cfg e t is_title)) = []
  /\ replies (events_of (translate_text cfg e t is_title)) = [].
Proof.
  unfold value_of, events_of, translate_text.
  destruct t as [[|c t]|]; run_monad; cbn [fst snd app];
    try (split; [eexists; reflexivity | split; reflexivity]).
  split_cases; cbn [fst snd app];
    (split; [eexists; reflexivity | split; reflexivity]).
Qed.

(** The ways a translation fails.  Without a client for the selected
    provider no call is made at all; a call that raises and a response
    without the expected text both end in [None]. *)
Lemma translate_text_not_configured (cfg : config) (e : env)
  (t : option pystr) (is_title : bool) :
  openai_client cfg = false -> anthropic_client cfg = false ->
  value_of (translate_text cfg e t is_title) = Ok None
  /\ provider_calls (events_of (translate_text cfg e t is_title)) = [].
Proof.
  intros Ho Ha. unfold value_of, events_of, translate_text.
  destruct t as [[|c t]|]; run_monad; cbn [fst snd app];
    try (split; reflexivity).
  rewrite Ho, Ha. cbn [negb].
  destruct (str_eqb (TRANSLATION_PROVIDER cfg) (lit "openai"));
    destruct (str_eqb (TRANSLATION_PROVIDER cfg) (lit "anthropic"));
    cbn [fst snd app]; split; reflexivity.
Qed.

Lemma translate_text_openai_answer (cfg : config) (e : env) (c : char)
  (text : pystr) (is_title : bool) :
  openai_client cfg = true ->
  value_of (translate_text cfg e (Some (c :: text)) is_title)
  = Ok match openai_create e
               (make_request (OPENAI_MODEL_NAME cfg) (c :: text) is_title) with
       | Content answer => Some (strip answer)
       | CallRaised | Malformed => None
       end.
Proof.
  intros Ho. unfold value_of, translate_text. rewrite Ho. cbn [negb].
  unfold openai_client in Ho. apply andb_prop in Ho as [Hp _]. rewrite Hp.
  run_monad. cbn [app].
  destruct (openai_create e _); reflexivity.
Qed.

Lemma extract_article_run (url : pystr) (html : soup) (tr : trace) :
  extract_article url html tr
  = (value_of (extract_article url html),
     tr ++ events_of (extract_article url html)).
Proof.
  unfold value_of, events_of, extract_article. run_monad.
  split_cases; cbn [fst snd app]; rewrite <- ?app_assoc, ?app_nil_r; reflexivity.
Qed.

Lemma fetch_article_text_run (e : env) (url : pystr) (tr : trace) :
  fetch_article_text e url tr
  = (value_of (fetch_article_text e url),
     tr ++ events_of (fetch_article_text e url)).
Proof.
  unfold value_of, events_of, fetch_article_text. run_monad.
  destruct (http_get e url) as [|status html]; cbn [fst snd app].
  - rewrite <- app_assoc. reflexivity.
  - destruct (negb (status =? 200)); cbn [fst snd app].
    + rewrite <- app_assoc. reflexivity.
    + rewrite (extract_article_run url html (tr ++ [EvHttpGet url])).
      rewrite (extract_article_run url html [EvHttpGet url]).
      destruct (value_of (extract_article url html)); cbn [fst snd app];
        rewrite <- ?app_assoc; reflexivity.
Qed.

Lemma extract_article_quiet (url : pystr) (html : soup) :
  (exists v, value_of (extract_article url html) = Ok v)
  /\ sends (events_of (extract_article url html)) = []
  /\ replies (events_of (extract_article url html)) = []
  /\ provider_calls (events_of (extract_article url html)) = [].
Proof.
  unfold value_of, events_of, extract_article. run_monad.
  split_cases; cbn [fst snd app];
    (split; [eexists; reflexivity | repeat split; reflexivity]).
Qed.

Lemma sends_app3 (a b c : list event) :
  sends a = [] -> sends b = [] -> sends c = [] -> sends (a ++ b ++ c) = [].
Proof. intros Ha Hb Hc. rewrite !sends_app, Ha, Hb, Hc. reflexivity. Qed.

Lemma replies_app (a b : list event) : replies (a ++ b) = replies a ++ replies b.
Proof. unfold replies. apply flat_map_app. Qed.

Lemma provider_calls_app (a b : list event) :
  provider_calls (a ++ b) = provider_calls a ++ provider_calls b.
Proof. unfold provider_calls. apply flat_map_app. Qed.

(** [fetch_article_text] never raises, and all it does is fetch and log. *)
Lemma fetch_article_text_quiet (e : env) (url : pystr) :
  (exists v, value_of (fetch_article_text e url) = Ok v)
  /\ sends (events_of (fetch_article_text e url)) = []
  /\ replies (events_of (fetch_article_text e url)) = []
  /\ provider_calls (events_of (fetch_article_text e url)) = [].
Proof.
  unfold value_of, events_of, fetch_article_text. run_monad.
  destruct (http_get e url) as [|status html]; cbn [fst snd app].
  - split; [eexists; reflexivity | repeat split; reflexivity].
  - destruct (negb (status =? 200)); cbn [fst snd app].
    + split; [eexists; reflexivity | repeat split; reflexivity].
    + rewrite (extract_article_run url html [EvHttpGet url]).
      destruct (extract_article_quiet url html) as ((v & Hv) & Hs & Hr & Hp).
      rewrite Hv. cbn [fst snd].
      split; [eexists; reflexivity |].
      rewrite sends_app, replies_app, provider_calls_app, Hs, Hr, Hp.
      repeat split; reflexivity.
Qed.

(** ** Stepping through a handler *)

Lemma bind_run {A B} (m : M A) (k : A -> M B) (tr tr' : trace) (a : A) :
  m tr = (Ok a, tr') -> bind m k tr = k a tr'.
Proof. intros H. unfold bind. rewrite H. reflexivity. Qed.

Lemma bind_raised {A B} (m : M A) (k : A -> M B) (tr tr' : trace) :
  m tr = (Raised, tr') -> bind m k tr = (Raised, tr').
Proof. intros H. unfold bind. rewrite H. reflexivity. Qed.

Lemma log_run (lv : level) (m : log_msg) (tr : trace) :
  log lv m tr = (Ok tt, tr ++ [EvLog lv m]).
Proof. reflexivity. Qed.

Ltac step_log := rewrite (bind_run _ _ _ _ _ (log_run _ _ _)).

Lemma send_parts_quiet (e : env) (dest : entity) (n : Z) (parts : list pystr) :
  forall i h,
    exists evs,
      send_parts e dest n i parts h = (Ok tt, h ++ evs)
      /\ sends evs = map (pair dest) parts
      /\ replies evs = [] /\ provider_calls evs = [].
Proof.
  induction parts as [|part rest IH]; intros i h.
  - exists []. rewrite app_nil_r. repeat split.
  - cbn [send_parts].
    unfold bind, try_except, log, sleep, emit, send_message, ret.
    destruct (send_message_raises e _ dest part);
      [| destruct (i <? n - 1)]; cbn beta iota;
      match goal with
      | |- context [send_parts e dest n (i + 1) rest ?h'] =>
          destruct (IH (i + 1) h') as (evs & Hrun & Hs & Hr & Hp); rewrite Hrun
      end;
      rewrite <- ?app_assoc; cbn [app];
      eexists; (split; [reflexivity |]);
      unfold sends, replies, provider_calls in *; cbn [flat_map app map];
      rewrite ?Hs, ?Hr, ?Hp; repeat split; reflexivity.
Qed.

(** Every text is delivered as its [outbound_parts], in order, and the
    delivery returns normally. *)
Lemma send_telegram_message_telethon_run (e : env) (dest : entity)
  (text : pystr) (h : trace) :
  exists evs,
    send_telegram_message_telethon e dest text h = (Ok tt, h ++ evs)
    /\ sends evs = map (pair dest) (outbound_parts text)
    /\ replies evs = [] /\ provider_calls evs = [].
Proof.
  unfold send_telegram_message_telethon, outbound_parts.
  destruct (len text <=? MAX_MESSAGE_LENGTH).
  - unfold try_except, send_message, log, emit.
    destruct (send_message_raises e h dest text);
      rewrite <- ?app_assoc; eexists; repeat split; reflexivity.
  - unfold bind, log, emit.
    destruct (send_parts_quiet e dest (Z.of_nat (length (message_parts text)))
                (message_parts text) 0
                (h ++ [EvLog INFO (MessageTooLong (len text))]))
      as (evs & Hrun & Hs & Hr & Hp).
    rewrite Hrun, <- app_assoc.
    eexists; (split; [reflexivity |]).
    unfold sends, replies, provider_calls in *. cbn [flat_map app].
    rewrite Hs, Hr, Hp. repeat split; reflexivity.
Qed.

Lemma internal_nil : internal [].
Proof. repeat split. Qed.

Lemma internal_app (a b : list event) :
  internal a -> internal b -> internal (a ++ b).
Proof.
  intros (Ha1 & Ha2 & Ha3) (Hb1 & Hb2 & Hb3). unfold internal.
  rewrite sends_app, replies_app. unfold translation_failures in *.
  rewrite flat_map_app, Ha1, Ha2, Ha3, Hb1, Hb2, Hb3. repeat split.
Qed.

Lemma translate_text_internal (cfg : config) (e : env) (t : option pystr)
  (is_title : bool) :
  internal (events_of (translate_text cfg e t is_title)).
Proof.
  unfold internal, events_of, translate_text.
  destruct t as [[|c t]|]; run_monad; cbn [fst snd app];
    try (repeat split; reflexivity).
  split_cases; cbn [fst snd app]; repeat split; reflexivity.
Qed.

Lemma extract_article_internal (url : pystr) (html : soup) :
  internal (events_of (extract_article url html)).
Proof.
  unfold internal, events_of, extract_article. run_monad.
  split_cases; cbn [fst snd app]; repeat split; reflexivity.
Qed.

Lemma fetch_article_text_internal (e : env) (url : pystr) :
  internal (events_of (fetch_article_text e url)).
Proof.
  unfold events_of, fetch_article_text. run_monad.
  destruct (http_get e url) as [|status html]; cbn [fst snd app];
    [repeat split; reflexivity |].
  destruct (negb (status =? 200)); cbn [fst snd app];
    [repeat split; reflexivity |].
  rewrite (extract_article_run url html [EvHttpGet url]).
  destruct (extract_article_quiet url html) as ((v & Hv) & _).
  rewrite Hv. cbn [fst snd].
  apply (internal_app [EvHttpGet url]); [repeat split |].
  apply extract_article_internal.
Qed.

(** The optional title translation of both handlers. *)
Lemma title_step (cfg : config) (e : env) (title : option pystr)
  (line : log_msg) (tr : trace) :
  (forall url, line <> BodyTranslationFailed url) ->
  (forall url, line <> ManualBodyTranslationFailed url) ->
  exists evs,
    (if truthy title
     then log INFO line ;; translate_text cfg e title true
     else ret None) tr
    = (Ok (translated_title cfg e title), tr ++ evs)
    /\ internal evs.
Proof.
  intros Hl1 Hl2. unfold translated_title. destruct (truthy title).
  - step_log. rewrite translate_text_run.
    destruct (translate_text_quiet cfg e title true) as ((v & Hv) & _).
    rewrite Hv, <- app_assoc.
    eexists. split; [reflexivity |].
    apply (internal_app [EvLog INFO line]); [| apply translate_text_internal].
    repeat split. unfold translation_failures. cbn.
    destruct line; try reflexivity; [edestruct Hl1 | edestruct Hl2]; reflexivity.
  - exists []. rewrite app_nil_r. split; [reflexivity | apply internal_nil].
Qed.

(** [handle_new_post] from the event to the body translation. *)
Lemma handle_new_post_to_body (cfg : config) (e : env) (target : entity)
  (ev : post_event) (tr : trace) (url : pystr) (title body r_body : option pystr) :
  first_url (or_empty (post_text ev)) = Some url ->
  value_of (fetch_article_text e url) = Ok (title, body) ->
  too_short 50 body = false ->
  value_of (translate_text cfg e body false) = Ok r_body ->
  exists evs,
    internal evs
    /\ handle_new_post cfg e target ev tr
       = if truthy r_body then
           (log INFO (SendingTranslation url) ;;
            send_telegram_message_telethon e target
              (compose_message (translated_title cfg e title) (text_of r_body) url) ;;
            log INFO (TranslationSent url)) (tr ++ evs)
         else (Ok tt, tr ++ evs ++ [EvLog WARNING (BodyTranslationFailed url)]).
Proof.
  intros Hurl Hfetch Hlong Hbody.
  unfold handle_new_post. rewrite Hurl.
  do 2 step_log.
  erewrite bind_run by (rewrite fetch_article_text_run, Hfetch; reflexivity).
  cbn [fst snd]. rewrite Hlong.
  destruct (title_step cfg e title (TranslatingTitle url)
              (((tr ++ [EvLog INFO (NewMessageReceived (post_chat_id ev))])
                  ++ [EvLog INFO (DetectedUrl url)])
                 ++ events_of (fetch_article_text e url)))
    as (tevs & Htitle & Htint); try discriminate.
  erewrite bind_run by exact Htitle.
  step_log.
  erewrite bind_run by (rewrite translate_text_run, Hbody; reflexivity).
  exists ([EvLog INFO (NewMessageReceived (post_chat_id ev));
           EvLog INFO (DetectedUrl url)]
            ++ events_of (fetch_article_text e url) ++ tevs
            ++ [EvLog INFO (TranslatingBody url)]
            ++ events_of (translate_text cfg e body false)).
  split.
  - apply (internal_app [_; _]); [repeat split |].
    apply internal_app; [apply fetch_article_text_internal |].
    apply internal_app; [assumption |].
    apply (internal_app [_]); [repeat split | apply translate_text_internal].
  - destruct (truthy r_body); cbn [negb].
    + f_equal. rewrite <- !app_assoc. reflexivity.
    + step_log. unfold ret. f_equal. rewrite <- !app_assoc. reflexivity.
Qed.

Lemma reply_run (e : env) (chat : entity) (text : pystr) (tr : trace) :
  reply_raises e text = false ->
  reply e chat text tr = (Ok tt, tr ++ [EvReply chat text]).
Proof. intros H. unfold reply. rewrite H. reflexivity. Qed.

(** [manual_translate_handler] from the event to the body translation. *)
Lemma manual_translate_handler_to_body (cfg : config) (e : env)
  (ev : command_event) (tr : trace) (url : pystr)
  (title body r_body : option pystr) :
  first_url (strip (cmd_group1 ev)) = Some url ->
  reply_raises e (processing_reply url) = false ->
  value_of (fetch_article_text e url) = Ok (title, body) ->
  too_short 30 body = false ->
  value_of (translate_text cfg e body false) = Ok r_body ->
  exists evs,
    internal evs
    /\ manual_translate_handler cfg e ev tr
       = if truthy r_body then
           (log INFO (ManualSending url (cmd_chat_id ev)) ;;
            send_telegram_message_telethon e (cmd_chat_id ev)
              (compose_message (translated_title cfg e title) (text_of r_body) url) ;;
            log INFO (ManualSent url (cmd_chat_id ev)))
             (tr ++ [EvLog INFO (ManualReceived url (cmd_chat_id ev));
                     EvReply (cmd_chat_id ev) (processing_reply url)] ++ evs)
         else
           (log WARNING (ManualBodyTranslationFailed url) ;;
            reply e (cmd_chat_id ev) (translation_failed_reply url))
             (tr ++ [EvLog INFO (ManualReceived url (cmd_chat_id ev));
                     EvReply (cmd_chat_id ev) (processing_reply url)] ++ evs).
Proof.
  intros Hurl Hack Hfetch Hlong Hbody.
  unfold manual_translate_handler. cbn zeta. rewrite Hurl.
  step_log.
  erewrite bind_run by (apply reply_run; exact Hack).
  erewrite bind_run by (rewrite fetch_article_text_run, Hfetch; reflexivity).
  cbn [fst snd]. rewrite Hlong.
  destruct (title_step cfg e title (ManualTranslatingTitle url)
              (((tr ++ [EvLog INFO (ManualReceived url (cmd_chat_id ev))])
                  ++ [EvReply (cmd_chat_id ev) (processing_reply url)])
                 ++ events_of (fetch_article_text e url)))
    as (tevs & Htitle & Htint); try discriminate.
  erewrite bind_run by exact Htitle.
  step_log.
  erewrite bind_run by (rewrite translate_text_run, Hbody; reflexivity).
  exists (events_of (fetch_article_text e url) ++ tevs
            ++ [EvLog INFO (ManualTranslatingBody url)]
            ++ events_of (translate_text cfg e body false)).
  split.
  - apply internal_app; [apply fetch_article_text_internal |].
    apply internal_app; [assumption |].
    apply (internal_app [_]); [repeat split | apply translate_text_internal].
  - destruct (truthy r_body); cbn [negb]; f_equal;
      rewrite <- !app_assoc; reflexivity.
Qed.

(** The last stage of both handlers: announce, deliver, confirm. *)
Lemma deliver_stage (e : env) (dest : entity) (text : pystr)
  (before after : log_msg) (h : trace) :
  exists evs,
    (log INFO before ;; send_telegram_message_telethon e dest text ;;
     log INFO after) h
    = (Ok tt, h ++ evs)
    /\ sends evs = map (pair dest) (outbound_parts text)
    /\ replies evs = [].
Proof.
  step_log.
  destruct (send_telegram_message_telethon_run e dest text
              (h ++ [EvLog INFO before])) as (evs & Hrun & Hs & Hr & _).
  erewrite bind_run by exact Hrun.
  rewrite log_run, <- !app_assoc.
  eexists. split; [reflexivity |].
  rewrite !sends_app, !replies_app, Hs, Hr. cbn. rewrite app_nil_r.
  split; reflexivity.
Qed.

(** ** Claims about the handlers *)

Lemma too_short_false (minimum : Z) (body : pystr) :
  0 < minimum -> minimum <= len body -> too_short minimum (Some body) = false.
Proof.
  intros Hmin Hlen. unfold too_short. cbn [text_of].
  destruct (Z.ltb_spec (len body) minimum); [lia |].
  destruct body; [cbn in Hlen; lia | reflexivity].
Qed.

Lemma too_short_true (minimum : Z) (body : option pystr) :
  0 < minimum -> body = None \/ len (text_of body) < minimum ->
  too_short minimum body = true.
Proof.
  intros Hmin [-> | Hlen]; [reflexivity |]. unfold too_short.
  destruct (Z.ltb_spec (len (text_of body)) minimum); [| lia].
  apply orb_true_r.
Qed.

Example sample_page_extraction :
  value_of (fetch_article_text title_fails_env sample_url)
  = Ok (Some (lit "Headline"),
        Some (lit "First paragraph of the article." ++ [newline; newline]
              ++ lit "Second paragraph." ++ [newline; newline]
              ++ lit "Third paragraph.")).
Proof. vm_compute. reflexivity. Qed.

(** C5: when the extracted body is absent or shorter than the minimum of
    the trigger -- 50 characters for a channel post, 30 for the command --
    the handler stops right after the fetch: the channel-post handler adds
    one warning line and nothing else; the command handler adds a warning
    line and replies to the triggering chat, in these words, that it could
    not extract enough article body text from the URL.  Neither reaches a
    translation call or a send: the fetch itself calls no provider, sends
    nothing and replies nothing. *)
Theorem C5_short_body_stops_before_translation (cfg : config) (e : env)
  (target : entity) (post : post_event) (cmd : command_event) (tr : trace)
  (url : pystr) (title body : option pystr) :
  value_of (fetch_article_text e url) = Ok (title, body) ->
  let processing :=
    lit "Processing manual translation for: " ++ url ++ lit "..." in
  let explanation :=
    lit "Could not extract enough article body text from " ++ url
      ++ lit ". Please check the URL or try another." in
  (first_url (or_empty (post_text post)) = Some url ->
   body = None \/ len (text_of body) < 50 ->
   handle_new_post cfg e target post tr
   = (Ok tt,
      tr ++ [EvLog INFO (NewMessageReceived (post_chat_id post));
             EvLog INFO (DetectedUrl url)]
         ++ events_of (fetch_article_text e url)
         ++ [EvLog WARNING (BodyTooShort url)]))
  /\ (first_url (strip (cmd_group1 cmd)) = Some url ->
      reply_raises e processing = false ->
      body = None \/ len (text_of body) < 30 ->
      manual_translate_handler cfg e cmd tr
      = (if reply_raises e explanation then Raised else Ok tt,
         tr ++ [EvLog INFO (ManualReceived url (cmd_chat_id cmd));
                EvReply (cmd_chat_id cmd) processing]
            ++ events_of (fetch_article_text e url)
            ++ [EvLog WARNING (ManualBodyTooShort url);
                EvReply (cmd_chat_id cmd) explanation]))
  /\ provider_calls (events_of (fetch_article_text e url)) = []
  /\ sends (events_of (fetch_article_text e url)) = []
  /\ replies (events_of (fetch_article_text e url)) = [].
Proof.
  intros Hfetch processing explanation. split; [| split].
  - intros Hurl Hshort. unfold handle_new_post. rewrite Hurl.
    do 2 step_log.
    erewrite bind_run by (rewrite fetch_article_text_run, Hfetch; reflexivity).
    cbn [fst snd]. rewrite too_short_true by (assumption || lia).
    step_log. unfold ret. rewrite <- !app_assoc. reflexivity.
  - intros Hurl Hack Hshort. unfold manual_translate_handler. cbn zeta.
    rewrite Hurl. step_log.
    erewrite bind_run by (apply reply_run; exact Hack).
    erewrite bind_run by (rewrite fetch_article_text_run, Hfetch; reflexivity).
    cbn [fst snd]. rewrite too_short_true by (assumption || lia).
    step_log. unfold reply. rewrite <- !app_assoc. reflexivity.
  - destruct (fetch_article_text_quiet e url) as (_ & Hs & Hr & Hp). auto.
Qed.

(** The theorem at a page whose body has ten characters. *)
Lemma C5_short_body_stops_before_translation_witness :
  value_of (fetch_article_text short_page_env sample_url)
  = Ok (Some (lit "Headline"), Some (lit "Too short."))
  /\ snd (handle_new_post sample_config short_page_env 7 sample_post [])
     = [EvLog INFO (NewMessageReceived 100);
        EvLog INFO (DetectedUrl sample_url);
        EvHttpGet sample_url;
        EvLog WARNING (BodyTooShort sample_url)]
  /\ snd (manual_translate_handler sample_config short_page_env sample_command [])
     = [EvLog INFO (ManualReceived sample_url 55);
        EvReply 55
          (lit "Processing manual translation for: https://mihaaru.com/news/12345...");
        EvHttpGet sample_url;
        EvLog WARNING (ManualBodyTooShort sample_url);
        EvReply 55
          (lit "Could not extract enough article body text from https://mihaaru.com/news/12345. Please check the URL or try another.")].
Proof.
  pose proof (C5_short_body_stops_before_translation sample_config
                short_page_env 7 sample_post sample_command [] sample_url
                (Some (lit "Headline")) (Some (lit "Too short.")))
    as H.
  destruct H as (Hpost & Hcmd & _); [vm_compute; reflexivity |].
  split; [vm_compute; reflexivity |].
  split.
  - rewrite Hpost; [vm_compute; reflexivity | vm_compute; reflexivity |].
    right. vm_compute. reflexivity.
  - rewrite Hcmd; [vm_compute; reflexivity | vm_compute; reflexivity
                  | vm_compute; reflexivity |].
    right. vm_compute. reflexivity.
Defined.

(** C7: when the body translation returns no result ([None], or an empty
    text), the event is abandoned before the message is composed, whatever
    the title and its translation were.  The channel-post handler sends
    nothing and replies nothing, and the events it adds end with the one
    line that records the failed body translation.  The command handler
    sends nothing either: after its acknowledgement the events it adds end
    with the line that records the failure and the reply that tells the
    requester, in these words, that the translation of the body failed. *)
Theorem C7_failed_body_translation_aborts (cfg : config) (e : env)
  (target : entity) (post : post_event) (cmd : command_event) (tr : trace)
  (url : pystr) (title : option pystr) (body : pystr) (r_body : option pystr) :
  value_of (fetch_article_text e url) = Ok (title, Some body) ->
  value_of (translate_text cfg e (Some body) false) = Ok r_body ->
  truthy r_body = false ->
  let processing :=
    lit "Processing manual translation for: " ++ url ++ lit "..." in
  let failure :=
    lit "Translation of body failed for " ++ url
      ++ lit ". The translation service might be unavailable or the content is not translatable." in
  (first_url (or_empty (post_text post)) = Some url ->
   50 <= len body ->
   exists evs,
     handle_new_post cfg e target post tr
     = (Ok tt, tr ++ evs ++ [EvLog WARNING (BodyTranslationFailed url)])
     /\ sends evs = [] /\ replies evs = [] /\ translation_failures evs = [])
  /\ (first_url (strip (cmd_group1 cmd)) = Some url ->
      reply_raises e processing = false ->
      30 <= len body ->
      exists evs,
        manual_translate_handler cfg e cmd tr
        = (if reply_raises e failure then Raised else Ok tt,
           tr ++ [EvLog INFO (ManualReceived url (cmd_chat_id cmd));
                  EvReply (cmd_chat_id cmd) processing]
              ++ evs
              ++ [EvLog WARNING (ManualBodyTranslationFailed url);
                  EvReply (cmd_chat_id cmd) failure])
        /\ sends evs = [] /\ replies evs = [] /\ translation_failures evs = []).
Proof.
  intros Hfetch Hbody Hfail processing failure. split.
  - intros Hurl Hlen.
    destruct (handle_new_post_to_body cfg e target post tr url title (Some body)
                r_body Hurl Hfetch (too_short_false 50 body eq_refl Hlen) Hbody)
      as (evs & Hint & Hrun).
    rewrite Hfail in Hrun. exists evs. split; [exact Hrun | exact Hint].
  - intros Hurl Hack Hlen.
    destruct (manual_translate_handler_to_body cfg e cmd tr url title
                (Some body) r_body Hurl Hack Hfetch
                (too_short_false 30 body eq_refl Hlen) Hbody)
      as (evs & Hint & Hrun).
    rewrite Hfail in Hrun. exists evs. split; [| exact Hint].
    rewrite Hrun. step_log. unfold reply. rewrite <- !app_assoc. reflexivity.
Qed.

(** The theorem where the title is translated and the body response is
    malformed. *)
Lemma C7_failed_body_translation_aborts_witness :
  value_of (translate_text sample_config body_fails_env (Some (lit "Headline")) true)
  = Ok (Some (lit "Council meets"))
  /\ (exists evs,
        handle_new_post sample_config body_fails_env 7 sample_post []
        = (Ok tt, [] ++ evs ++ [EvLog WARNING (BodyTranslationFailed sample_url)])
        /\ sends evs = [] /\ replies evs = [] /\ translation_failures evs = [])
  /\ (exists evs,
        manual_translate_handler sample_config body_fails_env sample_command []
        = (Ok tt,
           [] ++ [EvLog INFO (ManualReceived sample_url 55);
                  EvReply 55
                    (lit "Processing manual translation for: https://mihaaru.com/news/12345...")]
              ++ evs
              ++ [EvLog WARNING (ManualBodyTranslationFailed sample_url);
                  EvReply 55
                    (lit "Translation of body failed for https://mihaaru.com/news/12345. The translation service might be unavailable or the content is not translatable.")])
        /\ sends evs = [] /\ replies evs = [] /\ translation_failures evs = []).
Proof.
  split; [vm_compute; reflexivity |].
  destruct (C7_failed_body_translation_aborts sample_config body_fails_env 7
              sample_post sample_command [] sample_url (Some (lit "Headline"))
              (lit "First paragraph of the article." ++ [newline; newline]
                 ++ lit "Second paragraph." ++ [newline; newline]
                 ++ lit "Third paragraph.")
              None)
    as (Hpost & Hcmd); try (vm_compute; reflexivity).
  split.
  - apply Hpost; vm_compute; (reflexivity || discriminate).
  - apply Hcmd; vm_compute; (reflexivity || discriminate).
Defined.

Lemma chunked_not_nil (text : pystr) (parts : list pystr) :
  chunked text parts -> parts <> [].
Proof. destruct 1; discriminate. Qed.

Lemma outbound_parts_not_nil (text : pystr) : outbound_parts text <> [].
Proof.
  unfold outbound_parts.
  destruct (Z.leb_spec (len text) MAX_MESSAGE_LENGTH) as [_ | Hlen];
    [discriminate |].
  destruct (split_message_chunked text) as (parts & Hrun & Hch).
  { intros ->. cbn in Hlen. max_lia. }
  unfold message_parts. rewrite Hrun. apply chunked_not_nil with (1 := Hch).
Qed.

Lemma compose_message_without_title (title : option pystr) (body url : pystr) :
  truthy title = false ->
  compose_message title body url
  = body ++ [newline; newline] ++ original_article_link url.
Proof.
  intros H. unfold compose_message, original_article_link. rewrite H.
  cbn [app]. rewrite <- !app_assoc. reflexivity.
Qed.

(** C1, as the code has it: of the two translation calls of an event only
    the body's decides whether anything is delivered.  When the body
    translation returns no result, neither handler sends anything (the
    command handler replies that the translation failed); a title
    translation obtained before is dropped with the rest.  When the body
    translation succeeds, the composed message is delivered, in its parts,
    whatever became of the title translation: if that one failed, the
    message is the body and the link, without a title line. *)
Theorem C1_only_body_translation_failure_aborts (cfg : config) (e : env)
  (target : entity) (post : post_event) (cmd : command_event) (tr : trace)
  (url : pystr) (title : option pystr) (body : pystr) (r_body : option pystr) :
  value_of (fetch_article_text e url) = Ok (title, Some body) ->
  value_of (translate_text cfg e (Some body) false) = Ok r_body ->
  let message :=
    compose_message (translated_title cfg e title) (text_of r_body) url in
  (first_url (or_empty (post_text post)) = Some url ->
   50 <= len body ->
   exists evs,
     handle_new_post cfg e target post tr = (Ok tt, tr ++ evs)
     /\ replies evs = []
     /\ sends evs = if truthy r_body
                    then map (pair target) (outbound_parts message)
                    else [])
  /\ (first_url (strip (cmd_group1 cmd)) = Some url ->
      reply_raises e (processing_reply url) = false ->
      30 <= len body ->
      exists o evs,
        manual_translate_handler cfg e cmd tr = (o, tr ++ evs)
        /\ replies evs
           = (cmd_chat_id cmd, processing_reply url)
               :: (if truthy r_body then []
                   else [(cmd_chat_id cmd, translation_failed_reply url)])
        /\ sends evs = if truthy r_body
                       then map (pair (cmd_chat_id cmd)) (outbound_parts message)
                       else [])
  /\ outbound_parts message <> []
  /\ (truthy (translated_title cfg e title) = false ->
      message = text_of r_body ++ [newline; newline] ++ original_article_link url).
Proof.
  intros Hfetch Hbody message. repeat split.
  - intros Hurl Hlen.
    destruct (handle_new_post_to_body cfg e target post tr url title (Some body)
                r_body Hurl Hfetch (too_short_false 50 body eq_refl Hlen) Hbody)
      as (evs & (Hs & Hr & _) & Hrun).
    rewrite Hrun. destruct (truthy r_body).
    + destruct (deliver_stage e target message (SendingTranslation url)
                  (TranslationSent url) (tr ++ evs)) as (devs & Hd & Hds & Hdr).
      fold message. rewrite Hd, <- app_assoc.
      eexists. split; [reflexivity |].
      rewrite sends_app, replies_app, Hs, Hr, Hds, Hdr. split; reflexivity.
    + eexists. split; [reflexivity |].
      rewrite sends_app, replies_app, Hs, Hr. split; reflexivity.
  - intros Hurl Hack Hlen.
    destruct (manual_translate_handler_to_body cfg e cmd tr url title
                (Some body) r_body Hurl Hack Hfetch
                (too_short_false 30 body eq_refl Hlen) Hbody)
      as (evs & (Hs & Hr & _) & Hrun).
    rewrite Hrun. destruct (truthy r_body).
    + destruct (deliver_stage e (cmd_chat_id cmd) message
                  (ManualSending url (cmd_chat_id cmd))
                  (ManualSent url (cmd_chat_id cmd))
                  (tr ++ [EvLog INFO (ManualReceived url (cmd_chat_id cmd));
                          EvReply (cmd_chat_id cmd) (processing_reply url)]
                      ++ evs)) as (devs & Hd & Hds & Hdr).
      fold message. rewrite Hd, <- !app_assoc.
      eexists _, _. split; [reflexivity |].
      rewrite (sends_app [_; _]), (replies_app [_; _]), !sends_app, !replies_app,
        Hs, Hr, Hds, Hdr.
      split; reflexivity.
    + step_log. unfold reply. rewrite <- !app_assoc.
      eexists _, _. split; [reflexivity |].
      rewrite (sends_app [_; _]), (replies_app [_; _]), !sends_app, !replies_app,
        Hs, Hr.
      split; reflexivity.
  - apply outbound_parts_not_nil.
  - apply compose_message_without_title.
Qed.

(** The theorem where the body response is malformed: neither handler sends
    anything. *)
Lemma C1_only_body_translation_failure_aborts_witness :
  (exists evs,
      handle_new_post sample_config body_fails_env 7 sample_post []
      = (Ok tt, [] ++ evs)
      /\ replies evs = [] /\ sends evs = [])
  /\ exists o evs,
      manual_translate_handler sample_config body_fails_env sample_command []
      = (o, [] ++ evs)
      /\ replies evs = [(55, processing_reply sample_url);
                        (55, translation_failed_reply sample_url)]
      /\ sends evs = [].
Proof.
  destruct (C1_only_body_translation_failure_aborts sample_config
              body_fails_env 7 sample_post sample_command [] sample_url
              (Some (lit "Headline"))
              (lit "First paragraph of the article." ++ [newline; newline]
                 ++ lit "Second paragraph." ++ [newline; newline]
                 ++ lit "Third paragraph.")
              None)
    as (Hpost & Hcmd & _);
    [vm_compute; reflexivity | vm_compute; reflexivity |].
  split.
  - apply Hpost; vm_compute; (reflexivity || discriminate).
  - apply Hcmd; vm_compute; (reflexivity || discriminate).
Defined.

(** C1, as the specification words it, fails for the title: the provider
    call for the title raises, [translate_text] returns [None] for it, and
    both handlers still deliver the message, made of the body translation
    and the link. *)
Lemma C1_failed_title_translation_still_delivers :
  value_of (fetch_article_text title_fails_env sample_url)
  = Ok (Some (lit "Headline"),
        Some (lit "First paragraph of the article." ++ [newline; newline]
              ++ lit "Second paragraph." ++ [newline; newline]
              ++ lit "Third paragraph."))
  /\ translate_text sample_config title_fails_env (Some (lit "Headline")) true []
     = (Ok None,
        [EvProviderCall OpenAI
           (make_request (lit "gpt-3.5-turbo") (lit "Headline") true);
         EvLog ERROR OpenAIError])
  /\ sends (snd (handle_new_post sample_config title_fails_env 7 sample_post []))
     = [(7, lit "The council met on Monday." ++ [newline; newline]
              ++ original_article_link sample_url)]
  /\ sends (snd (manual_translate_handler sample_config title_fails_env
                   sample_command []))
     = [(55, lit "The council met on Monday." ++ [newline; newline]
               ++ original_article_link sample_url)].
Proof. repeat split; vm_compute; reflexivity. Qed.

(** ** The document tree *)

Lemma node_induction (P : node -> Prop) :
  (forall s, P (Text s)) ->
  (forall s, P (Comm s)) ->
  (forall name classes children,
      Forall P children -> P (Elem name classes children)) ->
  forall n, P n.
Proof.
  intros HT HC HE. fix IH 1. intros [s | s | name classes children].
  - apply HT.
  - apply HC.
  - apply HE. induction children as [|c children IHc]; constructor.
    + apply IH.
    + apply IHc.
Qed.






(** ** The comment-based walk *)

(** The search for the marker goes past what is no marker comment. *)
Lemma after_marker_before (before rest : list node) :
  forallb (fun n => negb (is_marker_comment n)) before = true ->
  after_marker (before ++ rest) = after_marker rest.
Proof.
  induction before as [|n before IH]; intros H; [reflexivity |].
  cbn [forallb] in H. apply andb_prop in H as [Hn Hrest].
  cbn [app]. destruct n as [s | s | nm cl ch]; cbn [after_marker].
  - apply IH. assumption.
  - cbn [is_marker_comment] in Hn. apply negb_true_iff in Hn. rewrite Hn.
    apply IH. assumption.
  - apply IH. assumption.
Qed.

Lemma plain_node_passed (name : pystr) (classes : list pystr) (ch : list node) :
  plain_node (Elem name classes ch) = true ->
  is_stop_div name classes = false
  /\ str_eqb name (lit "p") && is_article_paragraph classes = false.
Proof.
  unfold plain_node, is_stop_div, is_article_paragraph. intros H.
  apply andb_prop in H as [Hdiv Hp]. apply negb_true_iff in Hdiv, Hp.
  split.
  - rewrite Hdiv. reflexivity.
  - destruct (str_eqb name (lit "p")); [| reflexivity].
    cbn [andb] in *. cbv zeta. rewrite Hp. reflexivity.
Qed.

(** The walk collects nothing from plain nodes and does not stop at them. *)
Lemma collect_plain (gap rest : list node) :
  forallb plain_node gap = true ->
  collect_article_texts (filter is_element (gap ++ rest))
  = collect_article_texts (filter is_element rest).
Proof.
  induction gap as [|n gap IH]; intros H; [reflexivity |].
  cbn [forallb] in H. apply andb_prop in H as [Hn Hgap].
  cbn [app]. destruct n as [s | s | nm cl ch]; cbn [filter is_element].
  - apply IH. assumption.
  - apply IH. assumption.
  - cbn [collect_article_texts].
    destruct (plain_node_passed nm cl ch Hn) as [-> ->]. apply IH. assumption.
Qed.

Lemma str_eqb_true (a b : pystr) : str_eqb a b = true -> a = b.
Proof.
  revert b. induction a as [|x a IH]; intros [|y b] H; try discriminate.
  - reflexivity.
  - cbn [str_eqb] in H. apply andb_prop in H as [Hx Ha].
    apply N.eqb_eq in Hx. rewrite (IH b Ha), Hx. reflexivity.
Qed.

(** At a paragraph of the scenario the walk collects its text and goes on
    behind its inline markup. *)
Lemma collect_scenario_paragraph (p : node) (rest : list node) :
  scenario_paragraph p = true ->
  collect_article_texts (filter is_element (self_and_descendants p ++ rest))
  = get_text [newline] p :: collect_article_texts (filter is_element rest).
Proof.
  destruct p as [s | s | nm cl ch]; try discriminate.
  unfold scenario_paragraph. intros H.
  apply andb_prop in H as [H Hinline]. apply andb_prop in H as [H Hfaseyha].
  apply andb_prop in H as [H Hloose]. apply andb_prop in H as [Hname Hpx].
  apply str_eqb_true in Hname. subst nm.
  cbn [self_and_descendants app filter is_element collect_article_texts].
  replace (is_stop_div (lit "p") cl) with false by reflexivity.
  replace (is_article_paragraph cl) with true
    by (unfold is_article_paragraph; rewrite Hpx, Hloose, Hfaseyha; reflexivity).
  replace (str_eqb (lit "p") (lit "p")) with true by reflexivity.
  cbn [andb]. f_equal. apply collect_plain. assumption.
Qed.

(** At the divider the walk ends. *)
Lemma collect_scenario_divider (stop : node) (rest : list node) :
  scenario_divider stop = true ->
  collect_article_texts (filter is_element (stop :: rest)) = [].
Proof.
  destruct stop as [s | s | nm cl ch]; try discriminate.
  unfold scenario_divider. intros H.
  apply andb_prop in H as [H Hml]. apply andb_prop in H as [H Hblock].
  apply andb_prop in H as [Hname Hhidden].
  cbn [filter is_element collect_article_texts].
  unfold is_stop_div. rewrite Hname, Hhidden, Hblock, Hml, orb_true_r.
  reflexivity.
Qed.

(** ** Post-processing of the body text *)

Lemma count_newlines_snoc (run : pystr) (c : char) :
  count_newlines (run ++ [c])
  = if char_eqb newline c then count_newlines run + 1 else count_newlines run.
Proof.
  unfold count_newlines. rewrite filter_app, len_app. cbn [filter].
  destruct (char_eqb newline c); cbn; lia.
Qed.

(** Where no whitespace run holds three newlines the substitution changes
    nothing. *)
Lemma collapse_from_unchanged (s : pystr) :
  forall run,
    blank_runs_short (count_newlines run) s = true ->
    collapse_from run s = run ++ s.
Proof.
  induction s as [|c s IH]; intros run H; cbn [collapse_from blank_runs_short] in *.
  - unfold flush_run. rewrite app_nil_r.
    destruct (Z.ltb_spec (count_newlines run) 3); [| discriminate].
    destruct (Z.leb_spec 3 (count_newlines run)); [lia | reflexivity].
  - destruct (is_space c).
    + rewrite IH, <- app_assoc; [reflexivity |].
      rewrite count_newlines_snoc. assumption.
    + apply andb_prop in H as [Hk Hs]. unfold flush_run.
      destruct (Z.ltb_spec (count_newlines run) 3); [| discriminate].
      destruct (Z.leb_spec 3 (count_newlines run)); [lia |].
      rewrite (IH [] Hs). reflexivity.
Qed.

Lemma lstrip_snoc (l : pystr) (a : char) :
  is_space a = false -> exists l', lstrip (l ++ [a]) = l' ++ [a].
Proof.
  intros Ha. induction l as [|c l IH]; cbn [app lstrip].
  - rewrite Ha. exists []. reflexivity.
  - destruct (is_space c); [exact IH |]. exists (c :: l). reflexivity.
Qed.

Lemma lstrip_head (s : pystr) :
  lstrip s = [] \/ exists a m, lstrip s = a :: m /\ is_space a = false.
Proof.
  induction s as [|c s IH]; cbn [lstrip]; [left; reflexivity |].
  destruct (is_space c) eqn:E; [exact IH |]. right. eauto.
Qed.

Lemma trimmed_strip (t : pystr) : trimmed t -> strip t = t.
Proof.
  intros ((a & m & -> & Ha) & (m' & z & E & Hz)).
  unfold strip, rstrip. cbn [lstrip]. rewrite Ha, E, rev_app_distr.
  cbn [rev app lstrip]. rewrite Hz. cbn [rev].
  rewrite rev_involutive. reflexivity.
Qed.

Lemma strip_trimmed (s : pystr) : strip s <> [] -> trimmed (strip s).
Proof.
  unfold strip, rstrip. intros Hne.
  destruct (lstrip_head s) as [E | (a & m & E & Ha)].
  - rewrite E in Hne. cbn in Hne. congruence.
  - rewrite E in *. cbn [rev] in *.
    destruct (lstrip_snoc (rev m) a Ha) as (l' & El'). rewrite El' in *.
    rewrite rev_app_distr in *. cbn [rev app] in *.
    split; [eauto |].
    destruct (lstrip_head (rev m ++ [a])) as [E0 | (b & k & Eb & Hb)].
    + rewrite El' in E0. destruct l'; discriminate.
    + rewrite El' in Eb. rewrite <- rev_involutive with (l := a :: rev l').
      cbn [rev]. rewrite rev_involutive, Eb. cbn [rev]. eauto.
Qed.

Lemma trimmed_not_nil (t : pystr) : trimmed t -> t <> [].
Proof. intros ((a & m & -> & _) & _). discriminate. Qed.

Lemma trimmed_app (t u middle : pystr) :
  trimmed t -> trimmed u -> trimmed (t ++ middle ++ u).
Proof.
  intros ((a & m & -> & Ha) & _) (_ & (m' & z & -> & Hz)). split.
  - exists a, (m ++ middle ++ m' ++ [z]). split; [reflexivity | assumption].
  - exists ((a :: m) ++ middle ++ m'), z. split; [| assumption].
    rewrite <- !app_assoc. reflexivity.
Qed.

Lemma join_trimmed (sep : pystr) (l : list pystr) :
  Forall trimmed l -> l <> [] -> trimmed (join sep l).
Proof.
  induction l as [|x l IH]; intros Hall Hne; [congruence |].
  inversion Hall as [| ? ? Hx Hl]; subst.
  destruct l as [|y l]; [exact Hx |].
  change (join sep (x :: y :: l)) with (x ++ sep ++ join sep (y :: l)).
  apply trimmed_app; [assumption | apply IH; [assumption | discriminate]].
Qed.

(** What [get_text(strip=True)] returns is empty or trimmed. *)
Lemma get_text_of_trimmed (sep : pystr) (strings : list pystr) :
  get_text_of sep strings <> [] -> trimmed (get_text_of sep strings).
Proof.
  unfold get_text_of. intros Hne. apply join_trimmed.
  - apply Forall_forall. intros t Hin. apply filter_In in Hin as [Hin Ht].
    apply in_map_iff in Hin as (s & <- & _).
    apply strip_trimmed. intros E. rewrite E in Ht. discriminate.
  - intros E. rewrite E in Hne. apply Hne. reflexivity.
Qed.

Lemma blank_runs_short_after (t u : pystr) (z : char) :
  is_space z = false ->
  forall k,
    blank_runs_short k (t ++ z :: u)
    = blank_runs_short k (t ++ [z]) && blank_runs_short 0 u.
Proof.
  intros Hz. induction t as [|c t IH]; intros k; cbn [app blank_runs_short].
  - rewrite Hz. cbn [blank_runs_short]. change (0 <? 3) with true.
    rewrite andb_true_r. reflexivity.
  - destruct (is_space c); [apply IH |]. rewrite IH, andb_assoc. reflexivity.
Qed.

(** Two trimmed texts joined by a blank line: the blank line is a run of its
    own. *)
Lemma blank_runs_short_join (t u : pystr) :
  trimmed t -> trimmed u ->
  blank_runs_short 0 t = true -> blank_runs_short 0 u = true ->
  blank_runs_short 0 (t ++ [newline; newline] ++ u) = true.
Proof.
  intros (_ & (m & z & -> & Hz)) ((a & k & -> & Ha) & _) Ht Hu.
  rewrite <- app_assoc. cbn [app].
  rewrite blank_runs_short_after, Ht by assumption.
  cbn [andb blank_runs_short] in *.
  change (is_space newline) with true. cbn iota.
  change (char_eqb newline newline) with true. cbn iota.
  rewrite Ha in *. exact Hu.
Qed.

(** ** Claims about extraction *)

Lemma extract_article_value (url : pystr) (html : soup) :
  value_of (extract_article url html)
  = Ok (let soup := BeautifulSoup html in
        let title := option_map (get_text []) (find_title_tag soup) in
        let final := final_body_text (extracted_body_text (strip_tags soup)) in
        if negb (truthy title) && negb (truthy final) then (None, None)
        else (title, final)).
Proof.
  unfold value_of, extract_article. cbv zeta. run_monad.
  destruct (find_title_tag (BeautifulSoup html)); cbn [option_map fst snd];
    split_cases; reflexivity.
Qed.

Lemma fetch_value_200 (e : env) (url : pystr) (html : soup) :
  http_get e url = HttpResponse 200 html ->
  value_of (fetch_article_text e url) = value_of (extract_article url html).
Proof.
  intros H. unfold value_of at 1. unfold fetch_article_text. run_monad.
  rewrite H. cbn [app Z.eqb Pos.eqb negb].
  rewrite (extract_article_run url html [EvHttpGet url]).
  rewrite extract_article_value. reflexivity.
Qed.

(** C4: for a page that was fetched (status 200) and parsed, the result is
    the failure pair only if the title found and the post-processed body text
    are both absent or empty, and it is the failure pair in that case; as
    soon as one of the two is non-empty the pair of them is returned as it
    is, with no minimum length asked.  The title is the text of the title
    heading in the parsed document, the body text is taken from the document
    after the unwanted elements were removed; neither holds the strings of a
    script, a style sheet or a template. *)
Theorem C4_failure_only_when_nothing_extracted (e : env) (url : pystr)
  (html : soup) :
  http_get e url = HttpResponse 200 html ->
  let title :=
    option_map (get_text []) (find_title_tag (BeautifulSoup html)) in
  let final :=
    final_body_text (extracted_body_text (strip_tags (BeautifulSoup html))) in
  (truthy title = true \/ truthy final = true ->
   value_of (fetch_article_text e url) = Ok (title, final))
  /\ (value_of (fetch_article_text e url) = Ok (None, None) ->
      truthy title = false /\ truthy final = false)
  /\ (truthy title = false -> truthy final = false ->
      value_of (fetch_article_text e url) = Ok (None, None)).
Proof.
  intros H title final.
  rewrite (fetch_value_200 e url html H), extract_article_value.
  cbv zeta. fold title final. clearbody title final.
  destruct title as [[|a title]|], final as [[|b final]|];
    cbn [truthy negb andb]; repeat split; intros; try reflexivity;
    try discriminate; intuition congruence.
Qed.

(** The theorem at a page with a headline and a short body, a partial
    result returned as it is, and at a page whose headline holds nothing but
    a script, where nothing is extracted. *)
Lemma C4_failure_only_when_nothing_extracted_witness :
  value_of (fetch_article_text short_page_env sample_url)
  = Ok (Some (lit "Headline"), Some (lit "Too short."))
  /\ value_of (fetch_article_text (serving script_headline_page) sample_url)
     = Ok (None, None).
Proof.
  split.
  - destruct (C4_failure_only_when_nothing_extracted short_page_env sample_url
                short_page eq_refl) as (H & _).
    rewrite H; [vm_compute; reflexivity | left; vm_compute; reflexivity].
  - destruct (C4_failure_only_when_nothing_extracted
                (serving script_headline_page) sample_url script_headline_page
                eq_refl) as (_ & _ & H).
    apply H; vm_compute; reflexivity.
Defined.

Example nothing_extracted :
  value_of (fetch_article_text (serving [Elem (lit "h1") [] []]) sample_url)
  = Ok (None, None).
Proof. vm_compute. reflexivity. Qed.

(** Strings below a script or a template are in neither the title nor the
    fallback body. *)
Example contained_strings_left_out :
  option_map (get_text []) (find_title_tag (BeautifulSoup script_headline_page))
  = Some []
  /\ value_of (fetch_article_text (serving template_page) sample_url)
     = Ok (None, Some (lit "Story text.")).
Proof. split; vm_compute; reflexivity. Qed.

(** C3: take a document in which, reading the parsed document in document
    order after the unwanted elements were removed, the marker comment is
    followed by three paragraphs with the classes
    [text-19px leading-loose text-faseyha], then a [div] with the classes
    [hidden lg:block ml-10], then anything (a fourth such paragraph, say).
    The document may be nested in [html] and [body]; before the comment
    there is no other marker comment; between the comment, the paragraphs
    and the divider there may be strings, comments and any elements that are
    neither such paragraphs nor such dividers; the paragraphs may hold
    inline markup.  Then the body text extracted is the text of the first
    three paragraphs joined by blank lines: the walk stops at the divider
    and reaches nothing behind it.  When each of the three texts is
    non-empty and has no run of whitespace with three newlines,
    post-processing leaves the joined text as it is and
    [fetch_article_text] returns it as the body. *)
Theorem C3_walk_stops_at_divider (html : soup)
  (before gap0 gap1 gap2 gap3 rest : list node) (c : pystr)
  (p1 p2 p3 stop : node) :
  doc_order (strip_tags (BeautifulSoup html))
  = before ++ Comm c :: gap0 ++ self_and_descendants p1
      ++ gap1 ++ self_and_descendants p2
      ++ gap2 ++ self_and_descendants p3
      ++ gap3 ++ stop :: rest ->
  forallb (fun n => negb (is_marker_comment n)) before = true ->
  contains (lit "article body") (lower c) = true ->
  forallb plain_node (gap0 ++ gap1 ++ gap2 ++ gap3) = true ->
  forallb scenario_paragraph [p1; p2; p3] = true ->
  scenario_divider stop = true ->
  let t1 := get_text [newline] p1 in
  let t2 := get_text [newline] p2 in
  let t3 := get_text [newline] p3 in
  let joined := t1 ++ [newline; newline] ++ t2 ++ [newline; newline] ++ t3 in
  extracted_body_text (strip_tags (BeautifulSoup html)) = joined
  /\ (Forall (fun t => t <> [] /\ blank_runs_short 0 t = true) [t1; t2; t3] ->
      forall e url,
        http_get e url = HttpResponse 200 html ->
        exists title,
          value_of (fetch_article_text e url) = Ok (title, Some joined)).
Proof.
  intros Horder Hbefore Hc Hgaps Hps Hstop t1 t2 t3 joined.
  rewrite !forallb_app in Hgaps.
  apply andb_prop in Hgaps as [Hg0 Hgaps]. apply andb_prop in Hgaps as [Hg1 Hgaps].
  apply andb_prop in Hgaps as [Hg2 Hg3].
  cbn [forallb] in Hps.
  apply andb_prop in Hps as [Hp1 Hps]. apply andb_prop in Hps as [Hp2 Hps].
  apply andb_prop in Hps as [Hp3 _].
  assert (Hbody : extracted_body_text (strip_tags (BeautifulSoup html)) = joined).
  { unfold extracted_body_text, comment_based_body, find_all_next.
    rewrite Horder, (after_marker_before _ _ Hbefore).
    cbn [after_marker]. rewrite Hc. cbn [option_map].
    rewrite (collect_plain _ _ Hg0), (collect_scenario_paragraph _ _ Hp1).
    rewrite (collect_plain _ _ Hg1), (collect_scenario_paragraph _ _ Hp2).
    rewrite (collect_plain _ _ Hg2), (collect_scenario_paragraph _ _ Hp3).
    rewrite (collect_plain _ _ Hg3), (collect_scenario_divider _ _ Hstop).
    fold t1 t2 t3.
    change (join [newline; newline] [t1; t2; t3]) with joined.
    unfold joined. destruct t1; reflexivity. }
  split; [exact Hbody |].
  intros Hclean e url Hget.
  inversion Hclean as [| ? ? [Hn1 Hr1] Hclean']; subst.
  inversion Hclean' as [| ? ? [Hn2 Hr2] Hclean'']; subst.
  inversion Hclean'' as [| ? ? [Hn3 Hr3] _]; subst.
  assert (Ht1 : trimmed t1) by (apply get_text_of_trimmed; assumption).
  assert (Ht2 : trimmed t2) by (apply get_text_of_trimmed; assumption).
  assert (Ht3 : trimmed t3) by (apply get_text_of_trimmed; assumption).
  assert (Ht23 : trimmed (t2 ++ [newline; newline] ++ t3))
    by (apply trimmed_app; assumption).
  assert (Htrim : trimmed joined) by (apply trimmed_app; assumption).
  assert (Hfinal : final_body_text joined = Some joined).
  { unfold final_body_text.
    destruct joined eqn:E; [apply trimmed_not_nil in Htrim; congruence |].
    rewrite <- E in *. unfold collapse_blank_runs.
    rewrite collapse_from_unchanged.
    - cbn [app]. rewrite trimmed_strip by assumption. reflexivity.
    - apply blank_runs_short_join; try assumption.
      apply blank_runs_short_join; assumption. }
  rewrite (fetch_value_200 e url html Hget), extract_article_value.
  cbv zeta. rewrite Hbody, Hfinal.
  replace (truthy (Some joined)) with true.
  - rewrite andb_false_r. eexists. reflexivity.
  - destruct joined; [apply trimmed_not_nil in Htrim; congruence | reflexivity].
Qed.

(** The theorem at [nested_page]: the article nested in [html] and [body],
    line breaks between the tags, the paragraphs in a container of their
    own, a link inside the first paragraph.  The order of the document is
    cut where the marker comment, the three paragraphs and the divider
    stand. *)
Lemma C3_walk_stops_at_divider_witness :
  extracted_body_text (strip_tags (BeautifulSoup nested_page))
  = lit "The council" ++ [newline] ++ lit "met" ++ [newline]
      ++ lit "on Monday." ++ [newline; newline]
      ++ lit "Second paragraph." ++ [newline; newline]
      ++ lit "Third paragraph."
  /\ exists title,
      value_of (fetch_article_text (serving nested_page) sample_url)
      = Ok (title,
            Some (lit "The council" ++ [newline] ++ lit "met" ++ [newline]
                    ++ lit "on Monday." ++ [newline; newline]
                    ++ lit "Second paragraph." ++ [newline; newline]
                    ++ lit "Third paragraph.")).
Proof.
  pose (order := doc_order (strip_tags (BeautifulSoup nested_page))).
  destruct (C3_walk_stops_at_divider nested_page
              (firstn 7 order) (firstn 2 (skipn 8 order))
              [Text [newline]] [Text [newline]] [Text [newline]]
              (skipn 23 order) (lit " article body ")
              linked_paragraph
              (article_paragraph [lit "Second paragraph."])
              (article_paragraph [lit "Third paragraph."])
              (divider [Text (lit "advertisement")]))
    as (Hbody & Hfetch); try (vm_compute; reflexivity).
  split; [exact Hbody |].
  apply (Hfetch ltac:(repeat constructor; vm_compute; congruence)
           (serving nested_page) sample_url eq_refl).
Defined.

(** * Further properties *)

(** ** Strings *)

Lemma str_eqb_eq (a b : pystr) : str_eqb a b = true <-> a = b.
Proof.
  revert b. induction a as [|x a IH]; intros [|y b]; cbn [str_eqb];
    try (split; (reflexivity || discriminate)).
  unfold char_eqb. rewrite andb_true_iff, N.eqb_eq, IH.
  split; [intros [-> ->]; reflexivity | intros [= -> ->]; auto].
Qed.

Lemma strip_idempotent (s : pystr) : strip (strip s) = strip s.
Proof.
  destruct (strip s) as [|c t] eqn:E; [reflexivity |].
  rewrite <- E. apply trimmed_strip, strip_trimmed. rewrite E. discriminate.
Qed.

(** ** [translate_text] beyond the empty input *)

(** X1: [translate_text] returns normally for every configuration, input,
    role and environment -- a provider error never propagates -- and in
    doing so it calls a provider at most once, sends nothing and replies
    nothing. *)
Theorem X1_translate_text_absorbs_failures (cfg : config) (e : env)
  (t : option pystr) (is_title : bool) (tr : trace) :
  exists v evs,
    translate_text cfg e t is_title tr = (Ok v, tr ++ evs)
    /\ (length (provider_calls evs) <= 1)%nat
    /\ sends evs = [] /\ replies evs = [].
Proof.
  rewrite translate_text_run.
  unfold value_of, events_of, translate_text.
  destruct t as [[|c t]|]; run_monad; cbn [fst snd app];
    try (eexists _, _; repeat split; cbn; lia).
  split_cases; cbn [fst snd app]; eexists _, _; repeat split; cbn; lia.
Qed.

(** X2: whatever call [translate_text] makes goes to the provider that
    [TRANSLATION_PROVIDER] names, for the model configured for that
    provider; its user message is the instruction to translate the
    following Dhivehi text to English followed by the text itself; it
    carries the prompt and the token budget of the role: 1000 tokens for a
    title, 3000 for a body. *)
Theorem X2_translate_text_request (cfg : config) (e : env) (text : pystr)
  (is_title : bool) :
  Forall (fun call =>
            TRANSLATION_PROVIDER cfg = provider_name (fst call)
            /\ req_model (snd call) = model_name cfg (fst call)
            /\ req_user (snd call)
               = lit "Translate the following Dhivehi text to English:\n\n"
                   ++ text
            /\ req_max_tokens (snd call) = (if is_title then 1000 else 3000)
            /\ req_system (snd call)
               = (if is_title then title_prompt else body_prompt))
    (provider_calls (events_of (translate_text cfg e (Some text) is_title))).
Proof.
  unfold events_of, translate_text. destruct text as [|c text];
    [constructor |].
  destruct (str_eqb (TRANSLATION_PROVIDER cfg) (lit "openai")) eqn:Ho;
    [| destruct (str_eqb (TRANSLATION_PROVIDER cfg) (lit "anthropic")) eqn:Ha].
  - apply str_eqb_eq in Ho.
    destruct (negb (openai_client cfg)); run_monad; cbn [fst snd app];
      [constructor |].
    destruct (openai_create e _); cbn [fst snd app provider_calls flat_map];
      (constructor; [repeat split; assumption | constructor]).
  - apply str_eqb_eq in Ha.
    destruct (negb (anthropic_client cfg)); run_monad; cbn [fst snd app];
      [constructor |].
    destruct (anthropic_create e _); cbn [fst snd app provider_calls flat_map];
      (constructor; [repeat split; assumption | constructor]).
  - run_monad. constructor.
Qed.

(** X3: a translation that [translate_text] returns has no whitespace at
    either end: it is the provider's text after [strip()]. *)
Theorem X3_translation_is_stripped (cfg : config) (e : env)
  (t : option pystr) (is_title : bool) (tr tr' : trace) (r : pystr) :
  translate_text cfg e t is_title tr = (Ok (Some r), tr') ->
  strip r = r.
Proof.
  rewrite translate_text_run. unfold value_of, translate_text.
  destruct t as [[|c t]|]; run_monad; cbn [fst snd app]; try discriminate.
  split_cases; cbn [fst snd app]; try discriminate;
    intros [= <- _]; apply strip_idempotent.
Qed.

Lemma X3_translation_is_stripped_witness :
  strip (lit "Council meets") = lit "Council meets".
Proof.
  apply (X3_translation_is_stripped sample_config padded_answer_env
           (Some (lit "Headline")) true []
           [EvProviderCall OpenAI
              (make_request (lit "gpt-3.5-turbo") (lit "Headline") true)]).
  vm_compute. reflexivity.
Defined.

(** X4: when no client exists for the selected provider -- its key is
    missing, or [TRANSLATION_PROVIDER] names neither provider --
    [translate_text] returns [None] without calling any provider. *)
Theorem X4_no_client_no_call (cfg : config) (e : env) (t : option pystr)
  (is_title : bool) (tr : trace) :
  openai_client cfg = false -> anthropic_client cfg = false ->
  exists evs,
    translate_text cfg e t is_title tr = (Ok None, tr ++ evs)
    /\ provider_calls evs = [].
Proof.
  intros Ho Ha. rewrite translate_text_run.
  unfold value_of, events_of, translate_text.
  destruct t as [[|c t]|]; run_monad; cbn [fst snd app];
    try (eexists; split; reflexivity).
  rewrite Ho, Ha. cbn [negb].
  destruct (str_eqb (TRANSLATION_PROVIDER cfg) (lit "openai"));
    destruct (str_eqb (TRANSLATION_PROVIDER cfg) (lit "anthropic"));
    cbn [fst snd app]; eexists; split; reflexivity.
Qed.

Lemma X4_no_client_no_call_witness :
  exists evs,
    translate_text keyless_config padded_answer_env (Some (lit "Headline"))
      true []
    = (Ok None, [] ++ evs)
    /\ provider_calls evs = [].
Proof.
  apply (X4_no_client_no_call keyless_config padded_answer_env
           (Some (lit "Headline")) true []); reflexivity.
Defined.

(** ** Whitespace runs after post-processing *)

Lemma count_newlines_cons (c : char) (s : pystr) :
  count_newlines (c :: s)
  = (if char_eqb newline c then 1 else 0) + count_newlines s.
Proof.
  unfold count_newlines. cbn [filter].
  destruct (char_eqb newline c); [rewrite len_cons |]; lia.
Qed.

Lemma count_newlines_nonneg (s : pystr) : 0 <= count_newlines s.
Proof. apply len_nonneg. Qed.

Lemma blank_runs_short_spaces (w rest : pystr) :
  forallb is_space w = true ->
  forall k,
    blank_runs_short k (w ++ rest)
    = blank_runs_short (k + count_newlines w) rest.
Proof.
  induction w as [|c w IH]; intros Hw k; cbn [app].
  - f_equal. cbn. lia.
  - cbn [forallb] in Hw. apply andb_prop in Hw as [Hc Hw].
    cbn [blank_runs_short]. rewrite Hc, (IH Hw), count_newlines_cons.
    f_equal. destruct (char_eqb newline c); lia.
Qed.

Lemma flush_run_spaces (run : pystr) :
  forallb is_space run = true ->
  forallb is_space (flush_run run) = true /\ count_newlines (flush_run run) < 3.
Proof.
  intros H. unfold flush_run.
  destruct (Z.leb_spec 3 (count_newlines run)); split; auto; cbn; lia.
Qed.

(** After the substitution no whitespace run holds three newlines. *)
Lemma collapse_from_short (s : pystr) :
  forall run,
    forallb is_space run = true ->
    blank_runs_short 0 (collapse_from run s) = true.
Proof.
  induction s as [|c s IH]; intros run Hrun; cbn [collapse_from].
  - destruct (flush_run_spaces run Hrun) as [Hf Hc].
    rewrite <- (app_nil_r (flush_run run)), blank_runs_short_spaces by assumption.
    cbn [blank_runs_short]. apply Z.ltb_lt. lia.
  - destruct (is_space c) eqn:Ec.
    + apply IH. rewrite forallb_app, Hrun. cbn. rewrite Ec. reflexivity.
    + destruct (flush_run_spaces run Hrun) as [Hf Hc].
      rewrite blank_runs_short_spaces by assumption.
      cbn [blank_runs_short]. rewrite Ec, (IH [] eq_refl), andb_true_r.
      apply Z.ltb_lt. lia.
Qed.

Lemma lstrip_split (s : pystr) :
  exists w, s = w ++ lstrip s /\ forallb is_space w = true.
Proof.
  induction s as [|c s (w & Hs & Hw)]; [exists []; auto |].
  cbn [lstrip]. destruct (is_space c) eqn:Ec.
  - exists (c :: w). cbn. rewrite Ec, Hw, <- Hs. auto.
  - exists []. auto.
Qed.

Lemma rstrip_split (s : pystr) :
  exists w, s = rstrip s ++ w /\ forallb is_space w = true.
Proof.
  unfold rstrip. destruct (lstrip_split (rev s)) as (w & Hs & Hw).
  exists (rev w). split.
  - rewrite <- rev_app_distr, <- Hs, rev_involutive. reflexivity.
  - apply forallb_forall. intros x Hx. apply In_rev in Hx.
    rewrite forallb_forall in Hw. auto.
Qed.

Lemma blank_runs_short_drop_suffix (w m : pystr) :
  forallb is_space w = true ->
  forall k, blank_runs_short k (m ++ w) = true -> blank_runs_short k m = true.
Proof.
  intros Hw. induction m as [|c m IH]; intros k H; cbn [app blank_runs_short] in *.
  - rewrite <- (app_nil_r w), blank_runs_short_spaces in H by assumption.
    cbn [blank_runs_short] in H. apply Z.ltb_lt in H. apply Z.ltb_lt.
    pose proof (count_newlines_nonneg w). lia.
  - destruct (is_space c); [apply IH; assumption |].
    apply andb_prop in H as [Hk Hm]. rewrite Hk, (IH 0 Hm). reflexivity.
Qed.

Lemma blank_runs_short_strip (s : pystr) :
  blank_runs_short 0 s = true -> blank_runs_short 0 (strip s) = true.
Proof.
  intros H. unfold strip.
  destruct (rstrip_split (lstrip s)) as (w' & Hs' & Hw').
  apply blank_runs_short_drop_suffix with (w := w'); [assumption |].
  rewrite <- Hs'.
  destruct (lstrip_split s) as (w & Hs & Hw).
  rewrite Hs, blank_runs_short_spaces in H by assumption.
  destruct (lstrip_head s) as [E | (a & m & E & Ha)]; rewrite E in *;
    [reflexivity |].
  cbn [blank_runs_short] in *. rewrite Ha in *.
  apply andb_prop in H as [_ H]. rewrite H. reflexivity.
Qed.

Lemma final_body_text_clean (x b : pystr) :
  final_body_text x = Some b ->
  strip b = b /\ blank_runs_short 0 b = true.
Proof.
  unfold final_body_text. destruct x as [|c x]; [discriminate |].
  intros [= <-]. split.
  - apply strip_idempotent.
  - apply blank_runs_short_strip, collapse_from_short. reflexivity.
Qed.

Lemma get_text_of_stripped (sep : pystr) (strings : list pystr) :
  strip (get_text_of sep strings) = get_text_of sep strings.
Proof.
  destruct (get_text_of sep strings) as [|c t] eqn:E; [reflexivity |].
  rewrite <- E. apply trimmed_strip, get_text_of_trimmed. rewrite E. discriminate.
Qed.

(** ** [fetch_article_text] as a whole *)

(** X5: [fetch_article_text] returns normally whatever the network does and
    whatever the page holds; it makes exactly one HTTP request, for the URL
    it was given, and apart from that it only writes log lines. *)
Theorem X5_fetch_absorbs_failures (e : env) (url : pystr) (tr : trace) :
  exists v logs,
    fetch_article_text e url tr = (Ok v, tr ++ EvHttpGet url :: logs)
    /\ Forall (fun ev => exists lv m, ev = EvLog lv m) logs.
Proof.
  rewrite fetch_article_text_run.
  unfold value_of, events_of, fetch_article_text. run_monad.
  destruct (http_get e url) as [|status html]; cbn [fst snd app].
  - eexists _, _. split; [reflexivity |]. repeat constructor. eauto.
  - destruct (negb (status =? 200)); cbn [fst snd app].
    + eexists _, _. split; [reflexivity |]. repeat constructor. eauto.
    + rewrite (extract_article_run url html [EvHttpGet url]).
      rewrite extract_article_value. cbn [fst snd app].
      eexists _, _. split; [reflexivity |].
      unfold events_of, extract_article. run_monad.
      split_cases; cbn [fst snd app]; repeat constructor; eauto.
Qed.

Lemma fetch_failure_value (e : env) (url : pystr) :
  http_get e url = HttpRaised
  \/ (exists status html,
         http_get e url = HttpResponse status html /\ status <> 200) ->
  value_of (fetch_article_text e url) = Ok (None, None).
Proof.
  unfold value_of, fetch_article_text. run_monad.
  intros [H | (status & html & H & Hs)]; rewrite H; cbn [fst snd app];
    [reflexivity |].
  destruct (Z.eqb_spec status 200); [contradiction | reflexivity].
Qed.

(** X6: when the request raises, or the response has a status other than
    200, the result is the failure pair, whatever the response holds. *)
Theorem X6_fetch_failure_pair (e : env) (url : pystr) :
  http_get e url = HttpRaised
  \/ (exists status html,
         http_get e url = HttpResponse status html /\ status <> 200) ->
  value_of (fetch_article_text e url) = Ok (None, None).
Proof. apply fetch_failure_value. Qed.

Lemma X6_fetch_failure_pair_witness :
  value_of (fetch_article_text not_found_env sample_url) = Ok (None, None).
Proof.
  apply (X6_fetch_failure_pair not_found_env sample_url).
  right. exists 404, sample_page. split; [reflexivity | discriminate].
Defined.

(** X7: whatever [fetch_article_text] returns, a pair other than the
    failure pair holds a non-empty title or a non-empty body; a title has no
    whitespace at either end; a body has none either and holds no run of
    whitespace with three or more newlines. *)
Theorem X7_fetch_result_invariant (e : env) (url : pystr) :
  exists title body,
    value_of (fetch_article_text e url) = Ok (title, body)
    /\ ((title, body) = (None, None)
        \/ truthy title = true \/ truthy body = true)
    /\ (forall t, title = Some t -> strip t = t)
    /\ (forall b, body = Some b ->
                  strip b = b /\ blank_runs_short 0 b = true).
Proof.
  destruct (http_get e url) as [|status html] eqn:H.
  - exists None, None. rewrite fetch_failure_value by auto.
    repeat split; auto; intros; discriminate.
  - destruct (Z.eq_dec status 200) as [-> | Hs].
    + rewrite (fetch_value_200 e url html H), extract_article_value.
      cbv zeta.
      set (title := option_map (get_text []) (find_title_tag (BeautifulSoup html))).
      set (final := final_body_text
                      (extracted_body_text (strip_tags (BeautifulSoup html)))).
      assert (Ht : forall t, title = Some t -> strip t = t).
      { unfold title. destruct (find_title_tag (BeautifulSoup html));
          [| discriminate].
        intros t [= <-]. apply get_text_of_stripped. }
      assert (Hb : forall b, final = Some b ->
                             strip b = b /\ blank_runs_short 0 b = true).
      { intros b. apply final_body_text_clean. }
      cbv zeta. clearbody title final.
      destruct (truthy title) eqn:Et, (truthy final) eqn:Ef; cbn [negb andb];
        eexists _, _; (split; [reflexivity |]);
        (split; [auto |]); (split; [| intros b]);
        first [exact Ht | apply Hb | intros; discriminate].
    + exists None, None. rewrite fetch_failure_value by eauto.
      repeat split; auto; intros; discriminate.
Qed.

(** X8: post-processing is idempotent: a body text that came out of it
    goes through it unchanged. *)
Theorem X8_post_processing_idempotent (x b : pystr) :
  final_body_text x = Some b -> b <> [] -> final_body_text b = Some b.
Proof.
  intros H Hne. apply final_body_text_clean in H as [Hs Hr].
  unfold final_body_text. destruct b as [|c b]; [congruence |].
  unfold collapse_blank_runs. rewrite collapse_from_unchanged by exact Hr.
  cbn [app]. rewrite Hs. reflexivity.
Qed.

Lemma X8_post_processing_idempotent_witness :
  final_body_text (lit "a" ++ [newline; newline] ++ lit "b")
  = Some (lit "a" ++ [newline; newline] ++ lit "b").
Proof.
  apply (X8_post_processing_idempotent
           (lit " a " ++ [newline; newline; 32%N; newline] ++ lit "b ")).
  - vm_compute. reflexivity.
  - discriminate.
Defined.





(** ** Removing the non-content elements *)

Lemma decompose_tag_removes (name : pystr) (n : node) :
  forallb (free_of name) (decompose_tag name n) = true.
Proof.
  induction n as [s | s | nm classes children IH] using node_induction;
    cbn [decompose_tag]; try reflexivity.
  destruct (str_eqb nm name) eqn:E; [reflexivity |].
  cbn [forallb free_of]. rewrite E, andb_true_r. cbn [negb andb].
  induction children as [|c children IHc]; [reflexivity |].
  inversion IH as [| ? ? IHhead IHtail]; subst.
  cbn [flat_map]. rewrite forallb_app, IHhead. apply IHc. assumption.
Qed.

Lemma decompose_tag_keeps_free (name other : pystr) (n : node) :
  free_of name n = true ->
  forallb (free_of name) (decompose_tag other n) = true.
Proof.
  induction n as [s | s | nm classes children IH] using node_induction;
    intros H; cbn [decompose_tag]; try reflexivity.
  destruct (str_eqb nm other); [reflexivity |].
  cbn [free_of] in H. apply andb_prop in H as [Hnm Hch].
  cbn [forallb free_of]. rewrite Hnm, andb_true_r. cbn [andb].
  induction children as [|c children IHc]; [reflexivity |].
  inversion IH as [| ? ? IHhead IHtail]; subst.
  cbn [forallb] in Hch. apply andb_prop in Hch as [Hc Hrest].
  cbn [flat_map]. rewrite forallb_app, (IHhead Hc). apply IHc; assumption.
Qed.

Lemma decompose_all_removes (name : pystr) (doc : soup) :
  forallb (free_of name) (decompose_all name doc) = true.
Proof.
  unfold decompose_all. induction doc as [|n doc IH]; [reflexivity |].
  cbn [flat_map]. rewrite forallb_app, decompose_tag_removes. exact IH.
Qed.

Lemma decompose_all_keeps_free (name other : pystr) (doc : soup) :
  forallb (free_of name) doc = true ->
  forallb (free_of name) (decompose_all other doc) = true.
Proof.
  unfold decompose_all. induction doc as [|n doc IH]; intros H; [reflexivity |].
  cbn [forallb] in H. apply andb_prop in H as [Hn Hdoc].
  cbn [flat_map]. rewrite forallb_app, decompose_tag_keeps_free by assumption.
  apply IH. assumption.
Qed.

Lemma fold_decompose_keeps_free (name : pystr) (names : list pystr) :
  forall doc,
    forallb (free_of name) doc = true ->
    forallb (free_of name)
      (fold_left (fun d other => decompose_all other d) names doc) = true.
Proof.
  induction names as [|other names IH]; intros doc H; cbn [fold_left]; auto.
  apply IH, decompose_all_keeps_free. assumption.
Qed.

Lemma fold_decompose_removes (name : pystr) (names : list pystr) :
  In name names ->
  forall doc,
    forallb (free_of name)
      (fold_left (fun d other => decompose_all other d) names doc) = true.
Proof.
  induction names as [|other names IH]; intros Hin doc; [contradiction |].
  cbn [fold_left]. destruct Hin as [-> | Hin].
  - apply fold_decompose_keeps_free, decompose_all_removes.
  - apply IH. assumption.
Qed.

Lemma free_of_descendants (name : pystr) (n : node) :
  free_of name n = true ->
  Forall (fun m => match m with
                   | Elem nm _ _ => nm <> name
                   | _ => True
                   end) (self_and_descendants n).
Proof.
  induction n as [s | s | nm classes children IH] using node_induction;
    intros H; cbn [self_and_descendants].
  - repeat constructor.
  - repeat constructor.
  - cbn [free_of] in H. apply andb_prop in H as [Hnm Hch]. constructor.
    + intros ->. apply negb_true_iff in Hnm.
      assert (str_eqb name name = true) by (apply str_eqb_eq; reflexivity).
      congruence.
    + induction children as [|c children IHc]; [constructor |].
      inversion IH as [| ? ? IHhead IHtail]; subst.
      cbn [forallb] in Hch. apply andb_prop in Hch as [Hc Hrest].
      cbn [flat_map]. apply Forall_app. split; auto.
Qed.

(** X10: after the non-content elements are removed, no element named
    [script], [style], [header], [footer], [nav], [aside], [form], [img],
    [figure], [figcaption], [iframe], [button], [input], [textarea],
    [select] or [option] is left anywhere in the document, so none of them
    can contribute to the body text. *)
Theorem X10_stripped_tags_are_gone (name : pystr) (doc : soup) :
  In name STRIPPED_TAGS ->
  Forall (fun m => match m with
                   | Elem nm _ _ => nm <> name
                   | _ => True
                   end) (doc_order (strip_tags doc)).
Proof.
  intros Hin. pose proof (fold_decompose_removes name STRIPPED_TAGS Hin doc) as H.
  fold (strip_tags doc) in H. unfold doc_order.
  induction (strip_tags doc) as [|n d IH]; [constructor |].
  cbn [forallb] in H. apply andb_prop in H as [Hn Hd].
  cbn [flat_map]. apply Forall_app. split; [| apply IH; assumption].
  apply free_of_descendants. assumption.
Qed.

Lemma X10_stripped_tags_are_gone_witness :
  Forall (fun m => match m with
                   | Elem nm _ _ => nm <> lit "script"
                   | _ => True
                   end) (doc_order (strip_tags cluttered_page)).
Proof.
  apply (X10_stripped_tags_are_gone (lit "script") cluttered_page).
  left. reflexivity.
Defined.

(** ** The URL of an event *)

Lemma strip_prefix_spec (p s r : pystr) :
  strip_prefix p s = Some r -> s = p ++ r.
Proof.
  revert s. induction p as [|a p IH]; intros s H; cbn [strip_prefix] in H.
  - injection H as ->. reflexivity.
  - destruct s as [|b s]; [discriminate |].
    unfold char_eqb in H. destruct (N.eqb_spec a b) as [-> |]; [| discriminate].
    cbn [app]. f_equal. apply IH. assumption.
Qed.

Lemma take_nonspace_spec (t : pystr) :
  exists after,
    t = take_nonspace t ++ after
    /\ forallb non_space (take_nonspace t) = true
    /\ (after = [] \/ exists c rest, after = c :: rest /\ is_space c = true).
Proof.
  induction t as [|c t (after & Ht & Hns & Hafter)]; cbn [take_nonspace].
  - exists []. auto.
  - destruct (is_space c) eqn:Ec.
    + exists (c :: t). repeat split; eauto.
    + exists after. cbn [app forallb]. unfold non_space at 1.
      rewrite Ec, Hns, <- Ht. auto.
Qed.

Lemma match_url_at_spec (s u : pystr) :
  match_url_at s = Some u ->
  exists host after,
    s = u ++ after
    /\ (u = lit "http://" ++ host \/ u = lit "https://" ++ host)
    /\ host <> []
    /\ forallb non_space host = true
    /\ (after = [] \/ exists c rest, after = c :: rest /\ is_space c = true).
Proof.
  unfold match_url_at.
  assert (Htail : forall scheme r v,
             match strip_prefix (lit "://") r with
             | Some t => match take_nonspace t with
                         | [] => None
                         | run => Some (scheme ++ lit "://" ++ run)
                         end
             | None => None
             end = Some v ->
             exists host after,
               scheme ++ r = v ++ after /\ v = scheme ++ lit "://" ++ host
               /\ host <> [] /\ forallb non_space host = true
               /\ (after = []
                   \/ exists c rest, after = c :: rest /\ is_space c = true)).
  { intros scheme r v H.
    destruct (strip_prefix (lit "://") r) as [t |] eqn:Er; [| discriminate].
    apply strip_prefix_spec in Er.
    destruct (take_nonspace_spec t) as (after & Ht & Hns & Hafter).
    destruct (take_nonspace t) as [|c run] eqn:Erun; [discriminate |].
    injection H as <-. exists (c :: run), after.
    repeat split; auto; [| discriminate].
    rewrite Er, Ht, <- !app_assoc. reflexivity. }
  destruct (strip_prefix (lit "http") s) as [r |] eqn:Es; [| discriminate].
  apply strip_prefix_spec in Es. subst s.
  destruct (strip_prefix (lit "s") r) as [r' |] eqn:Er.
  - apply strip_prefix_spec in Er. subst r.
    destruct (match strip_prefix (lit "://") r' with
              | Some t => _
              | None => None
              end) as [v |] eqn:Ev.
    + intros [= <-]. apply Htail in Ev as (host & after & E & -> & ? & ? & ?).
      exists host, after. split; [| split; [right; reflexivity | auto]].
      rewrite <- E. reflexivity.
    + intros H. apply Htail in H as (host & after & E & -> & ? & ? & ?).
      exists host, after. split; [| split; [left; reflexivity | auto]].
      rewrite <- E. reflexivity.
  - intros H. apply Htail in H as (host & after & E & -> & ? & ? & ?).
    exists host, after. split; [| split; [left; reflexivity | auto]].
    rewrite <- E. reflexivity.
Qed.

(** X11: the URL taken from the text of an event is a piece of that text;
    it starts with [http://] or [https://], has at least one character after
    that, holds no whitespace and runs to the next whitespace or the end of
    the text; no other such URL starts before it. *)
Theorem X11_first_url_shape (s u : pystr) :
  first_url s = Some u ->
  exists before host after,
    s = before ++ u ++ after
    /\ (u = lit "http://" ++ host \/ u = lit "https://" ++ host)
    /\ host <> []
    /\ forallb non_space u = true
    /\ (after = [] \/ exists c rest, after = c :: rest /\ is_space c = true)
    /\ (forall i, (i < length before)%nat -> match_url_at (skipn i s) = None).
Proof.
  induction s as [|c s IH]; cbn [first_url].
  - destruct (match_url_at []) eqn:E; [| discriminate].
    cbv in E. discriminate.
  - destruct (match_url_at (c :: s)) as [v |] eqn:E.
    + intros [= <-].
      apply match_url_at_spec in E as (host & after & Hs & Hu & Hh & Hns & Ha).
      exists [], host, after. repeat split; auto.
      * destruct Hu as [-> | ->]; rewrite forallb_app, Hns; reflexivity.
      * cbn. intros i Hi. lia.
    + intros H. apply IH in H as (before & host & after & Hs & Hu & Hh & Hns & Ha & Hb).
      exists (c :: before), host, after. repeat split; auto.
      * rewrite Hs. reflexivity.
      * intros [|i] Hi; [exact E |]. cbn [skipn]. apply Hb. cbn in Hi. lia.
Qed.

Lemma X11_first_url_shape_witness :
  exists before host after,
    lit "New article: https://mihaaru.com/news/12345" = before ++ sample_url ++ after
    /\ (sample_url = lit "http://" ++ host \/ sample_url = lit "https://" ++ host)
    /\ host <> []
    /\ forallb non_space sample_url = true
    /\ (after = [] \/ exists c rest, after = c :: rest /\ is_space c = true)
    /\ (forall i, (i < length before)%nat ->
                  match_url_at
                    (skipn i (lit "New article: https://mihaaru.com/news/12345"))
                  = None).
Proof.
  apply (X11_first_url_shape
           (lit "New article: https://mihaaru.com/news/12345") sample_url).
  reflexivity.
Defined.

Lemma replace_char_flat_map (old : char) (new : pystr) (f : char -> pystr)
  (s : pystr) :
  replace_char old new (flat_map f s) = flat_map (fun c => replace_char old new (f c)) s.
Proof.
  unfold replace_char. induction s as [|c s IH]; [reflexivity |].
  cbn [flat_map]. rewrite flat_map_app, IH. reflexivity.
Qed.

Lemma escape_char_steps (c : char) :
  replace_char 62%N (lit "&gt;")
    (replace_char 60%N (lit "&lt;")
       (if char_eqb c 38%N then lit "&amp;" else [c]))
  = escape_char c.
Proof.
  unfold escape_char, char_eqb.
  destruct (N.eqb_spec c 38) as [-> | H38]; [reflexivity |].
  unfold replace_char. cbn [flat_map app]. unfold char_eqb.
  destruct (N.eqb_spec c 60) as [-> | H60]; [reflexivity |].
  cbn [flat_map app]. unfold char_eqb.
  destruct (N.eqb_spec c 62) as [-> | H62]; reflexivity.
Qed.

(** X12: the three replacements that escape the URL amount to one pass
    that replaces every [&], [<] and [>] by its entity: the ampersands of the
    entities are not escaped again.  So the escaped URL holds no [<] and no
    [>], and a URL without these three characters is left as it is. *)
Theorem X12_format_url_single_pass (url : pystr) :
  format_url url = flat_map escape_char url
  /\ forallb (fun c => negb (char_eqb c 60%N) && negb (char_eqb c 62%N))
       (format_url url) = true
  /\ (forallb (fun c => negb (char_eqb c 38%N) && negb (char_eqb c 60%N)
                        && negb (char_eqb c 62%N)) url = true ->
      format_url url = url).
Proof.
  assert (E : format_url url = flat_map escape_char url).
  { unfold format_url. unfold replace_char at 3.
    rewrite !replace_char_flat_map.
    induction url as [|c url IH]; [reflexivity |].
    cbn [flat_map]. rewrite IH. f_equal.
    rewrite <- escape_char_steps. unfold replace_char. reflexivity. }
  split; [exact E |]. rewrite E. clear E. split.
  - induction url as [|c url IH]; [reflexivity |].
    cbn [flat_map]. rewrite forallb_app, IH, andb_true_r.
    unfold escape_char, char_eqb.
    destruct (N.eqb_spec c 38); [reflexivity |].
    destruct (N.eqb_spec c 60); [reflexivity |].
    destruct (N.eqb_spec c 62) as [| H62]; [reflexivity |].
    cbn [forallb]. unfold char_eqb.
    destruct (N.eqb_spec c 60); [contradiction |].
    destruct (N.eqb_spec c 62); [contradiction | reflexivity].
  - induction url as [|c url IH]; [reflexivity |]. cbn [forallb flat_map].
    intros H. apply andb_prop in H as [Hc Hurl]. rewrite (IH Hurl).
    unfold escape_char.
    destruct (char_eqb c 38%N); [discriminate |].
    destruct (char_eqb c 60%N); [discriminate |].
    destruct (char_eqb c 62%N); [discriminate | reflexivity].
Qed.

(** ** Delivery as a whole *)

Lemma http_gets_app (a b : list event) :
  http_gets (a ++ b) = http_gets a ++ http_gets b.
Proof. unfold http_gets. apply flat_map_app. Qed.

Lemma sleeps_app (a b : list event) : sleeps (a ++ b) = sleeps a ++ sleeps b.
Proof. unfold sleeps. apply flat_map_app. Qed.

Lemma send_parts_pauses (e : env) (dest : entity) (n : Z) (parts : list pystr) :
  forall i h,
    n = i + Z.of_nat (length parts) ->
    exists evs,
      send_parts e dest n i parts h = (Ok tt, h ++ evs)
      /\ http_gets evs = []
      /\ Forall (eq 1) (sleeps evs)
      /\ (length (sleeps evs) <= pred (length parts))%nat
      /\ ((forall h' d t, send_message_raises e h' d t = false) ->
          length (sleeps evs) = pred (length parts)).
Proof.
  induction parts as [|part rest IH]; intros i h Hn.
  - exists []. rewrite app_nil_r. repeat split; constructor.
  - assert (Hn' : n = (i + 1) + Z.of_nat (length rest))
      by (cbn [length] in Hn; lia).
    cbn [send_parts].
    unfold bind, try_except, log, sleep, emit, send_message, ret.
    destruct (send_message_raises e _ dest part) eqn:Hraise;
      [| destruct (Z.ltb_spec i (n - 1)) as [Hlt | Hge]]; cbn beta iota;
      match goal with
      | |- context [send_parts e dest n (i + 1) rest ?h'] =>
          destruct (IH (i + 1) h' Hn') as (evs & Hrun & Hg & Hone & Hle & Heq);
          rewrite Hrun
      end;
      rewrite <- ?app_assoc; cbn [app];
      eexists; (split; [reflexivity |]);
      unfold http_gets, sleeps in *; cbn [flat_map app length];
      rewrite ?Hg.
    + repeat split; auto; [cbn [length]; lia |].
      intros Hok. rewrite Hok in Hraise. discriminate.
    + destruct rest as [|next rest]; [cbn [length] in Hn; lia |].
      repeat split; auto; cbn [length pred] in *; try lia.
      intros Hok. rewrite (Heq Hok). reflexivity.
    + destruct rest as [|next rest]; [| cbn [length] in Hn; lia].
      repeat split; auto.
Qed.

Lemma send_telegram_message_telethon_profile (e : env) (dest : entity) (text : pystr)
  (tr : trace) :
  exists evs,
    send_telegram_message_telethon e dest text tr = (Ok tt, tr ++ evs)
    /\ sends evs = map (pair dest) (outbound_parts text)
    /\ Forall (eq 1) (sleeps evs)
    /\ (length (sleeps evs) < length (outbound_parts text))%nat
    /\ ((forall h d t, send_message_raises e h d t = false) ->
        S (length (sleeps evs)) = length (outbound_parts text))
    /\ replies evs = [] /\ provider_calls evs = [] /\ http_gets evs = [].
Proof.
  destruct (send_telegram_message_telethon_run e dest text tr)
    as (evs & Hrun & Hs & Hr & Hp).
  exists evs. split; [exact Hrun |]. split; [exact Hs |].
  assert (Hrest : Forall (eq 1) (sleeps evs)
                  /\ (length (sleeps evs) < length (outbound_parts text))%nat
                  /\ ((forall h d t, send_message_raises e h d t = false) ->
                      S (length (sleeps evs)) = length (outbound_parts text))
                  /\ http_gets evs = []).
  { revert Hrun. unfold send_telegram_message_telethon, outbound_parts.
    destruct (Z.leb_spec (len text) MAX_MESSAGE_LENGTH) as [Hle | Hgt].
    - unfold try_except, send_message, log, emit.
      destruct (send_message_raises e tr dest text); rewrite <- ?app_assoc;
        intros [= E]; apply app_inv_head in E; subst evs;
        repeat split; cbn; auto.
    - unfold bind, log, emit.
      destruct (send_parts_pauses e dest
                  (Z.of_nat (length (message_parts text))) (message_parts text)
                  0 (tr ++ [EvLog INFO (MessageTooLong (len text))]))
        as (pevs & Hprun & Hg & Hone & Hle & Heq); [lia |].
      rewrite Hprun, <- app_assoc. intros [= E]. apply app_inv_head in E.
      subst evs. cbn [app].
      assert (Hparts : message_parts text <> []).
      { pose proof (outbound_parts_not_nil text) as Hne.
        unfold outbound_parts in Hne.
        destruct (Z.leb_spec (len text) MAX_MESSAGE_LENGTH); [lia | exact Hne]. }
      destruct (message_parts text) as [|p ps]; [congruence |].
      unfold sleeps, http_gets in *. cbn [flat_map app length pred] in *.
      repeat split; auto; try lia;
        try (intros Hok; rewrite (Heq Hok); reflexivity). }
  tauto.
Qed.

(** X13: [send_telegram_message_telethon] returns normally for every text
    and whatever the sends do: a failed send never reaches the caller.  It
    attempts every part, in order, to the one destination; it pauses one
    second at a time and fewer times than there are parts -- exactly once
    between consecutive parts when no send fails; it fetches nothing, calls
    no provider and replies nothing. *)
Theorem X13_delivery_never_raises (e : env) (dest : entity) (text : pystr)
  (tr : trace) :
  exists evs,
    send_telegram_message_telethon e dest text tr = (Ok tt, tr ++ evs)
    /\ sends evs = map (pair dest) (outbound_parts text)
    /\ Forall (eq 1) (sleeps evs)
    /\ (length (sleeps evs) < length (outbound_parts text))%nat
    /\ ((forall h d t, send_message_raises e h d t = false) ->
        S (length (sleeps evs)) = length (outbound_parts text))
    /\ replies evs = [] /\ provider_calls evs = [] /\ http_gets evs = [].
Proof. apply send_telegram_message_telethon_profile. Qed.

Lemma outbound_parts_bounded (text : pystr) :
  Forall (fun p => len p <= MAX_MESSAGE_LENGTH) (outbound_parts text).
Proof.
  unfold outbound_parts.
  destruct (Z.leb_spec (len text) MAX_MESSAGE_LENGTH) as [Hle | Hgt].
  - repeat constructor. assumption.
  - destruct (split_message_chunked text) as (parts & Hrun & Hch).
    { intros ->. cbn in Hgt. max_lia. }
    unfold message_parts. rewrite Hrun.
    apply chunked_bounded in Hch. eapply Forall_impl; [| exact Hch].
    cbn. intros; lia.
Qed.

(** X14: no text that [send_telegram_message_telethon] hands to
    [client.send_message] is longer than 4000 characters, whatever the text
    it was given. *)
Theorem X14_no_oversized_send (e : env) (dest : entity) (text : pystr)
  (tr : trace) :
  exists evs,
    send_telegram_message_telethon e dest text tr = (Ok tt, tr ++ evs)
    /\ Forall (fun sent => len (snd sent) <= MAX_MESSAGE_LENGTH) (sends evs).
Proof.
  destruct (send_telegram_message_telethon_run e dest text tr)
    as (evs & Hrun & Hs & _).
  exists evs. split; [exact Hrun |]. rewrite Hs.
  apply Forall_map. exact (outbound_parts_bounded text).
Qed.

(** ** What splitting loses *)

Lemma chunked_loss (text : pystr) (parts : list pystr) :
  chunked text parts ->
  len (concat parts) <= len text
  /\ len text + 1 <= len (concat parts) + Z.of_nat (length parts).
Proof.
  induction 1 as [rest ? | p rest parts ? ? ? ? IH | p rest parts ? ? ? ? IH];
    cbn [concat length]; rewrite ?app_nil_r, ?len_app, ?len_cons; lia.
Qed.

Lemma chunked_lossless (text : pystr) (parts : list pystr) :
  chunked text parts -> no_newline text -> concat parts = text.
Proof.
  induction 1 as [rest ? | p rest parts ? ? ? ? IH | p rest parts ? ? ? ? IH];
    intros Hno; cbn [concat].
  - apply app_nil_r.
  - apply Forall_app in Hno as [_ Hno]. inversion Hno as [| ? ? Hhead _].
    contradiction Hhead. reflexivity.
  - apply Forall_app in Hno as [_ Hno]. rewrite IH by assumption. reflexivity.
Qed.

(** X15: splitting a text longer than 4000 characters loses at most one
    character at each boundary between two parts, and nothing at all when
    the text holds no newline: the parts put together are then the text. *)
Theorem X15_splitting_loss (text : pystr) :
  MAX_MESSAGE_LENGTH < len text ->
  exists parts,
    split_message text = Some parts
    /\ len (concat parts) <= len text
    /\ len text <= len (concat parts) + Z.of_nat (length parts) - 1
    /\ (no_newline text -> concat parts = text).
Proof.
  intros Hlen.
  destruct (split_message_chunked text) as (parts & Hrun & Hch).
  { intros ->. cbn in Hlen. max_lia. }
  exists parts. split; [exact Hrun |].
  destruct (chunked_loss text parts Hch). repeat split; try lia.
  apply chunked_lossless. assumption.
Qed.

Lemma X15_splitting_loss_witness :
  exists parts,
    split_message unbroken_text = Some parts
    /\ len (concat parts) <= len unbroken_text
    /\ len unbroken_text <= len (concat parts) + Z.of_nat (length parts) - 1
    /\ (no_newline unbroken_text -> concat parts = unbroken_text).
Proof.
  apply (X15_splitting_loss unbroken_text). vm_compute. reflexivity.
Defined.

Example unbroken_text_parts :
  split_message unbroken_text
  = Some [letters 97%N 4000; letters 97%N 4000; letters 97%N 1000].
Proof. vm_compute. reflexivity. Qed.

(** ** The handlers on every path *)

Lemma quiet_calls_app (j k : nat) (a b : list event) :
  quiet_calls j a -> quiet_calls k b -> quiet_calls (j + k) (a ++ b).
Proof.
  intros (Ha1 & Ha2 & Ha3 & Ha4) (Hb1 & Hb2 & Hb3 & Hb4). unfold quiet_calls.
  rewrite sends_app, replies_app, http_gets_app, provider_calls_app, length_app,
    Ha1, Ha2, Ha3, Hb1, Hb2, Hb3.
  repeat split. lia.
Qed.

Lemma quiet_calls_log (lv : level) (m : log_msg) : quiet_calls 0 [EvLog lv m].
Proof. repeat split. cbn. lia. Qed.

Lemma quiet_calls_more (j k : nat) (evs : list event) :
  (j <= k)%nat -> quiet_calls j evs -> quiet_calls k evs.
Proof. intros Hjk (H1 & H2 & H3 & H4). repeat split; auto. lia. Qed.

Lemma translate_text_quiet_calls (cfg : config) (e : env) (t : option pystr)
  (is_title : bool) :
  quiet_calls 1 (events_of (translate_text cfg e t is_title)).
Proof.
  unfold quiet_calls, events_of, translate_text.
  destruct t as [[|c t]|]; run_monad; cbn [fst snd app];
    try (repeat split; cbn; lia).
  split_cases; cbn [fst snd app]; repeat split; cbn; lia.
Qed.

Lemma fetch_article_text_profile (e : env) (url : pystr) :
  sends (events_of (fetch_article_text e url)) = []
  /\ replies (events_of (fetch_article_text e url)) = []
  /\ provider_calls (events_of (fetch_article_text e url)) = []
  /\ http_gets (events_of (fetch_article_text e url)) = [url].
Proof.
  destruct (fetch_article_text_quiet e url) as (_ & Hs & Hr & Hp).
  repeat split; try assumption.
  unfold events_of, fetch_article_text. run_monad.
  destruct (http_get e url) as [|status html]; cbn [fst snd app];
    [reflexivity |].
  destruct (negb (status =? 200)); cbn [fst snd app]; [reflexivity |].
  rewrite (extract_article_run url html [EvHttpGet url]), extract_article_value.
  cbn [fst snd]. unfold events_of, extract_article. run_monad.
  split_cases; reflexivity.
Qed.

Lemma title_step_calls (cfg : config) (e : env) (title : option pystr)
  (line : log_msg) (tr : trace) :
  exists evs,
    (if truthy title
     then log INFO line ;; translate_text cfg e title true
     else ret None) tr
    = (Ok (translated_title cfg e title), tr ++ evs)
    /\ quiet_calls 1 evs.
Proof.
  unfold translated_title. destruct (truthy title).
  - step_log. rewrite translate_text_run.
    destruct (translate_text_quiet cfg e title true) as ((v & Hv) & _).
    rewrite Hv, <- app_assoc.
    eexists. split; [reflexivity |].
    apply (quiet_calls_app 0 1 [EvLog INFO line]);
      [apply quiet_calls_log | apply translate_text_quiet_calls].
  - exists []. rewrite app_nil_r. split; [reflexivity |].
    repeat split. cbn. lia.
Qed.

Lemma deliver_stage_profile (e : env) (dest : entity) (text : pystr)
  (before after : log_msg) (h : trace) :
  exists evs,
    (log INFO before ;; send_telegram_message_telethon e dest text ;;
     log INFO after) h
    = (Ok tt, h ++ evs)
    /\ sends evs = map (pair dest) (outbound_parts text)
    /\ replies evs = [] /\ provider_calls evs = [] /\ http_gets evs = [].
Proof.
  step_log.
  destruct (send_telegram_message_telethon_profile e dest text
              (h ++ [EvLog INFO before]))
    as (evs & Hrun & Hs & _ & _ & _ & Hr & Hp & Hg).
  erewrite bind_run by exact Hrun.
  rewrite log_run, <- !app_assoc.
  eexists. split; [reflexivity |].
  rewrite !sends_app, !replies_app, !provider_calls_app, !http_gets_app,
    Hs, Hr, Hp, Hg.
  cbn. rewrite app_nil_r. repeat split.
Qed.

Lemma sends_to_dest (dest : entity) (parts : list pystr) :
  Forall (fun sent => fst sent = dest) (map (pair dest) parts).
Proof. apply Forall_map. apply Forall_forall. reflexivity. Qed.

(** X16: on every channel post, whatever the page, the provider and the
    sends do, [handle_new_post] returns normally and never replies; it
    fetches the first URL of the text once, or nothing when the text holds no
    URL; it calls a provider at most twice; and whatever it sends goes to the
    target channel. *)
Theorem X16_handle_new_post_profile (cfg : config) (e : env) (target : entity)
  (ev : post_event) (tr : trace) :
  exists evs,
    handle_new_post cfg e target ev tr = (Ok tt, tr ++ evs)
    /\ replies evs = []
    /\ Forall (fun sent => fst sent = target) (sends evs)
    /\ (length (provider_calls evs) <= 2)%nat
    /\ http_gets evs = match first_url (or_empty (post_text ev)) with
                       | Some url => [url]
                       | None => []
                       end.
Proof.
  unfold handle_new_post. step_log.
  destruct (first_url (or_empty (post_text ev))) as [url |].
  2:{ eexists. split; [reflexivity |]. repeat split; cbn; auto. }
  step_log.
  destruct (fetch_article_text_quiet e url) as (([title body] & Hv) & _).
  destruct (fetch_article_text_profile e url) as (Fs & Fr & Fp & Fg).
  erewrite bind_run by (rewrite fetch_article_text_run, Hv; reflexivity).
  cbn [fst snd].
  set (F := events_of (fetch_article_text e url)) in *.
  destruct (too_short 50 body).
  { step_log. unfold ret. rewrite <- !app_assoc.
    eexists. split; [reflexivity |].
    rewrite !replies_app, !sends_app, !provider_calls_app, !http_gets_app,
      Fs, Fr, Fp, Fg.
    repeat split; cbn; auto. }
  destruct (title_step_calls cfg e title (TranslatingTitle url)
              (((tr ++ [EvLog INFO (NewMessageReceived (post_chat_id ev))])
                  ++ [EvLog INFO (DetectedUrl url)]) ++ F))
    as (T & Htitle & Ts & Tr & Tg & Tp).
  erewrite bind_run by exact Htitle.
  step_log.
  destruct (translate_text_quiet cfg e body false) as ((r & Hr) & _).
  destruct (translate_text_quiet_calls cfg e body false) as (Bs & Br & Bg & Bp).
  erewrite bind_run by (rewrite translate_text_run, Hr; reflexivity).
  set (B := events_of (translate_text cfg e body false)) in *.
  destruct (truthy r); cbn [negb].
  - match goal with
    | |- context [bind _ _ ?h] =>
        destruct (deliver_stage_profile e target
                    (compose_message (translated_title cfg e title) (text_of r) url)
                    (SendingTranslation url) (TranslationSent url) h)
          as (D & Hd & Ds & Dr & Dp & Dg)
    end.
    rewrite Hd, <- !app_assoc.
    eexists. split; [reflexivity |].
    rewrite !replies_app, !sends_app, !provider_calls_app, !http_gets_app,
      !length_app, Fs, Fr, Fp, Fg, Ts, Tr, Tg, Bs, Br, Bg, Ds, Dr, Dp, Dg.
    repeat split; cbn; auto using sends_to_dest. lia.
  - step_log. unfold ret. rewrite <- !app_assoc.
    eexists. split; [reflexivity |].
    rewrite !replies_app, !sends_app, !provider_calls_app, !http_gets_app,
      !length_app, Fs, Fr, Fp, Fg, Ts, Tr, Tg, Bs, Br, Bg.
    repeat split; cbn; auto. lia.
Qed.

Lemma reply_event (e : env) (chat : entity) (text : pystr) (tr : trace) :
  reply e chat text tr
  = (if reply_raises e text then Raised else Ok tt, tr ++ [EvReply chat text]).
Proof. reflexivity. Qed.

(** X17: on every [/translate] command, whatever happens,
    [manual_translate_handler] answers the triggering chat: it replies once
    or twice, always to that chat, and whatever it sends goes to that chat
    too.  It fetches at most once and calls a provider at most twice.  It
    raises only if a reply raised, and then it has sent nothing. *)
Theorem X17_manual_handler_profile (cfg : config) (e : env)
  (ev : command_event) (tr : trace) :
  exists o evs,
    manual_translate_handler cfg e ev tr = (o, tr ++ evs)
    /\ Forall (fun sent => fst sent = cmd_chat_id ev) (sends evs)
    /\ Forall (fun r => fst r = cmd_chat_id ev) (replies evs)
    /\ (1 <= length (replies evs) <= 2)%nat
    /\ (length (http_gets evs) <= 1)%nat
    /\ (length (provider_calls evs) <= 2)%nat
    /\ ((forall text, reply_raises e text = false) -> o = Ok tt)
    /\ (o = Raised -> sends evs = []).
Proof.
  unfold manual_translate_handler. cbn zeta.
  set (chat := cmd_chat_id ev).
  destruct (first_url (strip (cmd_group1 ev))) as [url |].
  2:{ rewrite reply_event. eexists _, _. split; [reflexivity |].
      repeat split; cbn; auto; try lia.
      intros H. rewrite H. reflexivity. }
  step_log.
  destruct (reply_raises e (processing_reply url)) eqn:Hack.
  { erewrite bind_raised by (rewrite reply_event, Hack; reflexivity).
    rewrite <- !app_assoc.
    eexists _, _. split; [reflexivity |].
    repeat split; cbn; auto; try lia.
    intros H. rewrite H in Hack. discriminate. }
  erewrite bind_run by (rewrite reply_event, Hack; reflexivity).
  destruct (fetch_article_text_quiet e url) as (([title body] & Hv) & _).
  destruct (fetch_article_text_profile e url) as (Fs & Fr & Fp & Fg).
  erewrite bind_run by (rewrite fetch_article_text_run, Hv; reflexivity).
  cbn [fst snd].
  set (F := events_of (fetch_article_text e url)) in *.
  destruct (too_short 30 body).
  { step_log. rewrite reply_event, <- !app_assoc.
    eexists _, _. split; [reflexivity |].
    rewrite !replies_app, !sends_app, !provider_calls_app, !http_gets_app,
      !length_app, Fs, Fr, Fp, Fg.
    repeat split; cbn; auto; try lia.
    intros H. rewrite H. reflexivity. }
  destruct (title_step_calls cfg e title (ManualTranslatingTitle url)
              (((tr ++ [EvLog INFO (ManualReceived url chat)])
                  ++ [EvReply chat (processing_reply url)]) ++ F))
    as (T & Htitle & Ts & Tr & Tg & Tp).
  erewrite bind_run by exact Htitle.
  step_log.
  destruct (translate_text_quiet cfg e body false) as ((r & Hr) & _).
  destruct (translate_text_quiet_calls cfg e body false) as (Bs & Br & Bg & Bp).
  erewrite bind_run by (rewrite translate_text_run, Hr; reflexivity).
  set (B := events_of (translate_text cfg e body false)) in *.
  destruct (truthy r); cbn [negb].
  - match goal with
    | |- context [bind _ _ ?h] =>
        destruct (deliver_stage_profile e chat
                    (compose_message (translated_title cfg e title) (text_of r) url)
                    (ManualSending url chat) (ManualSent url chat) h)
          as (D & Hd & Ds & Dr & Dp & Dg)
    end.
    rewrite Hd, <- !app_assoc.
    eexists _, _. split; [reflexivity |].
    rewrite !replies_app, !sends_app, !provider_calls_app, !http_gets_app,
      !length_app, Fs, Fr, Fp, Fg, Ts, Tr, Tg, Bs, Br, Bg, Ds, Dr, Dp, Dg.
    repeat split; cbn; auto using sends_to_dest; try lia; discriminate.
  - step_log. rewrite reply_event, <- !app_assoc.
    eexists _, _. split; [reflexivity |].
    rewrite !replies_app, !sends_app, !provider_calls_app, !http_gets_app,
      !length_app, Fs, Fr, Fp, Fg, Ts, Tr, Tg, Bs, Br, Bg.
    repeat split; cbn; auto; try lia.
    intros H. rewrite H. reflexivity.
Qed.

(** ** Start-up *)

(** X18: [main] goes on to connect exactly when the four Telegram
    variables are all set and a client exists for the selected provider;
    when it refuses, it names at least one reason.  The module-level set-up
    never creates both clients. *)
Theorem X18_configuration_check (s : telegram_settings) (cfg : config) :
  (configuration_check s cfg = None <->
   (truthy (TELEGRAM_API_ID s) = true /\ truthy (TELEGRAM_API_HASH s) = true
    /\ truthy (MIHAARU_CHANNEL_ENV s) = true
    /\ truthy (TARGET_CHANNEL_ENV s) = true)
   /\ (openai_client cfg = true \/ anthropic_client cfg = true))
  /\ (forall details, configuration_check s cfg = Some details -> details <> [])
  /\ openai_client cfg && anthropic_client cfg = false.
Proof.
  unfold configuration_check, missing_vars_details, provider_specific_vars_ok,
    common_vars_ok, openai_client, anthropic_client.
  destruct (str_eqb (TRANSLATION_PROVIDER cfg) (lit "openai")) eqn:Ho;
    destruct (str_eqb (TRANSLATION_PROVIDER cfg) (lit "anthropic")) eqn:Ha.
  1:{ apply str_eqb_eq in Ho. apply str_eqb_eq in Ha. rewrite Ho in Ha.
      discriminate. }
  all: destruct (truthy (TELEGRAM_API_ID s)), (truthy (TELEGRAM_API_HASH s)),
         (truthy (MIHAARU_CHANNEL_ENV s)), (truthy (TARGET_CHANNEL_ENV s)),
         (truthy (OPENAI_API_KEY cfg)), (truthy (ANTHROPIC_API_KEY cfg));
    cbn [andb orb negb app];
    (split; [split; [try discriminate; tauto
                    | intros [(? & ? & ? & ?) [? | ?]];
                      try reflexivity; try discriminate]
            | split; [intros details [= <-]; discriminate
                                     || (intros; discriminate)
                     | reflexivity]]).
Qed.

Lemma provider_calls_once (cfg : config) (e : env) (c : char) (text : pystr)
  (is_title : bool) :
  openai_client cfg = true \/ anthropic_client cfg = true ->
  exists p,
    TRANSLATION_PROVIDER cfg = provider_name p
    /\ provider_calls
         (events_of (translate_text cfg e (Some (c :: text)) is_title))
       = [(p, make_request (model_name cfg p) (c :: text) is_title)].
Proof.
  intros H. unfold events_of, translate_text.
  destruct (str_eqb (TRANSLATION_PROVIDER cfg) (lit "openai")) eqn:Ho.
  - assert (Hc : openai_client cfg = true).
    { destruct H as [H | H]; [exact H |].
      unfold anthropic_client in H. apply andb_prop in H as [Ha _].
      apply str_eqb_eq in Ho. apply str_eqb_eq in Ha. rewrite Ho in Ha.
      discriminate. }
    rewrite Hc. cbn [negb]. run_monad. exists OpenAI.
    split; [apply str_eqb_eq; exact Ho |].
    destruct (openai_create e _); reflexivity.
  - assert (Hc : anthropic_client cfg = true).
    { destruct H as [H | H]; [| exact H].
      unfold openai_client in H. rewrite Ho in H. discriminate. }
    pose proof Hc as Hc'. unfold anthropic_client in Hc'.
    apply andb_prop in Hc' as [Ha _]. rewrite Ha, Hc. cbn [negb]. run_monad.
    exists Anthropic. split; [apply str_eqb_eq; exact Ha |].
    destruct (anthropic_create e _); reflexivity.
Qed.

(** X19: once the check of [main] has passed, no translation stops for
    want of a client: every call of [translate_text] with a non-empty text
    reaches the selected provider, exactly once. *)
Theorem X19_checked_configuration_reaches_provider (s : telegram_settings)
  (cfg : config) (e : env) (c : char) (text : pystr) (is_title : bool) :
  configuration_check s cfg = None ->
  exists p,
    TRANSLATION_PROVIDER cfg = provider_name p
    /\ provider_calls
         (events_of (translate_text cfg e (Some (c :: text)) is_title))
       = [(p, make_request (model_name cfg p) (c :: text) is_title)].
Proof.
  intros Hcheck. apply provider_calls_once.
  unfold configuration_check in Hcheck.
  destruct (common_vars_ok s); [| discriminate].
  unfold provider_specific_vars_ok, openai_client, anthropic_client in *.
  destruct (str_eqb (TRANSLATION_PROVIDER cfg) (lit "openai")
            && truthy (OPENAI_API_KEY cfg)); [left; reflexivity |].
  destruct (str_eqb (TRANSLATION_PROVIDER cfg) (lit "anthropic")
            && truthy (ANTHROPIC_API_KEY cfg));
    [right; reflexivity | discriminate].
Qed.

Lemma X19_checked_configuration_reaches_provider_witness :
  exists p,
    TRANSLATION_PROVIDER sample_config = provider_name p
    /\ provider_calls
         (events_of (translate_text sample_config body_fails_env
                       (Some (lit "Headline")) true))
       = [(p, make_request (model_name sample_config p) (lit "Headline") true)].
Proof.
  apply (X19_checked_configuration_reaches_provider sample_settings
           sample_config body_fails_env 72%N (lit "eadline") true).
  reflexivity.
Defined.

(** X20: [get_entity_safely] looks nothing up for an absent or empty
    identifier.  Otherwise it makes one lookup, or two when the first, by
    number, raised [ValueError]; it returns an entity only if its last lookup
    found that entity, and whenever it returns [None] for a non-empty
    identifier it has logged the failure, once. *)
Theorem X20_get_entity_safely_lookups (int_of_str : pystr -> option Z)
  (isdigit : pystr -> bool) (get_entity : lookup_key -> lookup_outcome)
  (entity_identifier : option pystr) :
  let result := get_entity_safely int_of_str isdigit get_entity entity_identifier in
  (truthy entity_identifier = false -> result = (None, []))
  /\ (truthy entity_identifier = true ->
      (lookups (snd result) = [ByName (text_of entity_identifier)]
       \/ (exists n, int_of_str (text_of entity_identifier) = Some n
                     /\ (lookups (snd result) = [ById n]
                         \/ (get_entity (ById n) = LookupValueError
                             /\ lookups (snd result)
                                = [ById n; ByName (text_of entity_identifier)]))))
      /\ match fst result with
         | Some ent =>
             entity_errors (snd result) = []
             /\ exists earlier key,
                 lookups (snd result) = earlier ++ [key]
                 /\ get_entity key = Found ent
         | None => entity_errors (snd result) = [text_of entity_identifier]
         end).
Proof.
  cbv zeta. unfold get_entity_safely, lookup_by_name.
  destruct (truthy entity_identifier); cbn [negb].
  2:{ split; [reflexivity | discriminate]. }
  split; [discriminate |]. intros _.
  set (s := text_of entity_identifier).
  destruct (startswith_minus s || isdigit s).
  - destruct (int_of_str s) as [n |] eqn:En.
    + destruct (get_entity (ById n)) as [ent | |] eqn:Eid.
      * split; [right; exists n; split; [reflexivity | left; reflexivity] |].
        cbn. split; [reflexivity |]. exists [], (ById n).
        split; [reflexivity | exact Eid].
      * destruct (get_entity (ByName s)) as [ent | |] eqn:Ename; cbn;
          (split; [right; exists n; split; [reflexivity |];
                   right; split; [exact Eid | reflexivity] |]);
          try reflexivity.
        split; [reflexivity |]. exists [ById n], (ByName s).
        split; [reflexivity | exact Ename].
      * split; [right; exists n; split; [reflexivity | left; reflexivity] |].
        reflexivity.
    + destruct (get_entity (ByName s)) as [ent | |] eqn:Ename; cbn;
        (split; [left; reflexivity |]); try reflexivity.
      split; [reflexivity |]. exists [], (ByName s).
      split; [reflexivity | exact Ename].
  - destruct (get_entity (ByName s)) as [ent | |] eqn:Ename; cbn;
      (split; [left; reflexivity |]); try reflexivity.
    split; [reflexivity |]. exists [], (ByName s).
    split; [reflexivity | exact Ename].
Qed.

(** X21: an identifier that looks like a number and that
    [client.get_entity] rejects as a number with [ValueError] is looked up
    again as a name, and the result is that of the second lookup. *)
Theorem X21_numeric_identifier_retried_as_name
  (int_of_str : pystr -> option Z) (isdigit : pystr -> bool)
  (get_entity : lookup_key -> lookup_outcome) (c : char) (s : pystr) (n : Z) :
  startswith_minus (c :: s) || isdigit (c :: s) = true ->
  int_of_str (c :: s) = Some n ->
  get_entity (ById n) = LookupValueError ->
  get_entity_safely int_of_str isdigit get_entity (Some (c :: s))
  = match get_entity (ByName (c :: s)) with
    | Found ent =>
        (Some ent, [EvGetEntity (ById n); EvGetEntity (ByName (c :: s))])
    | LookupValueError | LookupError =>
        (None, [EvGetEntity (ById n); EvGetEntity (ByName (c :: s));
                EvLogEntityError (c :: s)])
    end.
Proof.
  intros Hnum Hint Hid. unfold get_entity_safely, lookup_by_name.
  cbn [truthy negb text_of]. rewrite Hnum, Hint, Hid.
  destruct (get_entity (ByName (c :: s))); reflexivity.
Qed.

Lemma X21_numeric_identifier_retried_as_name_witness :
  get_entity_safely (fun _ => Some (-1001234567890)) (fun _ => false)
    (fun key => match key with
                | ById _ => LookupValueError
                | ByName _ => Found 7
                end)
    (Some (lit "-1001234567890"))
  = (Some 7, [EvGetEntity (ById (-1001234567890));
              EvGetEntity (ByName (lit "-1001234567890"))]).
Proof.
  apply (X21_numeric_identifier_retried_as_name
           (fun _ => Some (-1001234567890)) (fun _ => false)
           (fun key => match key with
                       | ById _ => LookupValueError
                       | ByName _ => Found 7
                       end)
           45%N (lit "1001234567890") (-1001234567890)); reflexivity.
Defined.

(** ** A failed fetch, end to end *)

Lemma fetch_failure_events (e : env) (url : pystr) :
  http_get e url = HttpRaised
  \/ (exists status html,
         http_get e url = HttpResponse status html /\ status <> 200) ->
  exists line,
    events_of (fetch_article_text e url) = [EvHttpGet url; EvLog ERROR line].
Proof.
  unfold events_of, fetch_article_text. run_monad.
  intros [H | (status & html & H & Hs)]; rewrite H; cbn [fst snd app].
  - eexists. reflexivity.
  - destruct (Z.eqb_spec status 200); [contradiction |]. eexists. reflexivity.
Qed.

(** X22: when the request for the article raises or is answered with a
    status other than 200, the channel-post handler logs the error and the
    warning and stops, returning normally: nothing is translated, sent or
    replied.  The command handler does the same and tells the triggering
    chat, in these words, that it could not extract enough article body
    text from the URL. *)
Theorem X22_failed_fetch_end_to_end (cfg : config) (e : env) (target : entity)
  (post : post_event) (cmd : command_event) (tr : trace) (url : pystr) :
  http_get e url = HttpRaised
  \/ (exists status html,
         http_get e url = HttpResponse status html /\ status <> 200) ->
  let processing :=
    lit "Processing manual translation for: " ++ url ++ lit "..." in
  let explanation :=
    lit "Could not extract enough article body text from " ++ url
      ++ lit ". Please check the URL or try another." in
  exists line,
    (first_url (or_empty (post_text post)) = Some url ->
     handle_new_post cfg e target post tr
     = (Ok tt,
        tr ++ [EvLog INFO (NewMessageReceived (post_chat_id post));
               EvLog INFO (DetectedUrl url);
               EvHttpGet url;
               EvLog ERROR line;
               EvLog WARNING (BodyTooShort url)]))
    /\ (first_url (strip (cmd_group1 cmd)) = Some url ->
        reply_raises e processing = false ->
        manual_translate_handler cfg e cmd tr
        = (if reply_raises e explanation then Raised else Ok tt,
           tr ++ [EvLog INFO (ManualReceived url (cmd_chat_id cmd));
                  EvReply (cmd_chat_id cmd) processing;
                  EvHttpGet url;
                  EvLog ERROR line;
                  EvLog WARNING (ManualBodyTooShort url);
                  EvReply (cmd_chat_id cmd) explanation])).
Proof.
  intros Hfail processing explanation.
  pose proof (fetch_failure_value e url Hfail) as Hv.
  destruct (fetch_failure_events e url Hfail) as (line & Hev).
  exists line. split.
  - intros Hurl. unfold handle_new_post. rewrite Hurl. do 2 step_log.
    erewrite bind_run by (rewrite fetch_article_text_run, Hv, Hev; reflexivity).
    cbn [fst snd too_short truthy negb orb].
    step_log. unfold ret. rewrite <- !app_assoc. reflexivity.
  - intros Hurl Hack. unfold manual_translate_handler. cbn zeta.
    rewrite Hurl. step_log.
    erewrite bind_run by (apply reply_run; exact Hack).
    erewrite bind_run by (rewrite fetch_article_text_run, Hv, Hev; reflexivity).
    cbn [fst snd too_short truthy negb orb].
    step_log. rewrite reply_event, <- !app_assoc. reflexivity.
Qed.

(** The theorem at a URL that is answered with status 404. *)
Lemma X22_failed_fetch_end_to_end_witness :
  exists line,
    handle_new_post sample_config not_found_env 7 sample_post []
    = (Ok tt,
       [] ++ [EvLog INFO (NewMessageReceived 100);
              EvLog INFO (DetectedUrl sample_url);
              EvHttpGet sample_url;
              EvLog ERROR line;
              EvLog WARNING (BodyTooShort sample_url)])
    /\ manual_translate_handler sample_config not_found_env sample_command []
       = (Ok tt,
          [] ++ [EvLog INFO (ManualReceived sample_url 55);
                 EvReply 55
                   (lit "Processing manual translation for: https://mihaaru.com/news/12345...");
                 EvHttpGet sample_url;
                 EvLog ERROR line;
                 EvLog WARNING (ManualBodyTooShort sample_url);
                 EvReply 55
                   (lit "Could not extract enough article body text from https://mihaaru.com/news/12345. Please check the URL or try another.")]).
Proof.
  destruct (X22_failed_fetch_end_to_end sample_config not_found_env 7
              sample_post sample_command [] sample_url)
    as (line & Hpost & Hcmd).
  - right. exists 404, sample_page. split; [reflexivity | discriminate].
  - exists line. split.
    + apply Hpost. reflexivity.
    + rewrite Hcmd; [reflexivity | vm_compute; reflexivity | vm_compute; reflexivity].
Defined.

(** ** The walk after the marker comment *)

(** X23: what follows the first divider among the elements after the
    marker comment has no influence on the texts collected: the walk ends
    there. *)
Theorem X23_nothing_read_after_divider (before after after' : list node)
  (name : pystr) (classes : list pystr) (children : list node) :
  is_stop_div name classes = true ->
  collect_article_texts (before ++ Elem name classes children :: after)
  = collect_article_texts (before ++ Elem name classes children :: after').
Proof.
  intros Hstop. induction before as [|n before IH]; cbn [app collect_article_texts].
  - rewrite Hstop. reflexivity.
  - destruct n as [s | s | nm cl ch]; try exact IH.
    destruct (is_stop_div nm cl); [reflexivity |].
    destruct (str_eqb nm (lit "p") && is_article_paragraph cl);
      [f_equal |]; exact IH.
Qed.

Lemma X23_nothing_read_after_divider_witness :
  collect_article_texts
    ([article_paragraph [lit "Kept."]]
       ++ divider [] :: [article_paragraph [lit "Dropped."]])
  = collect_article_texts ([article_paragraph [lit "Kept."]] ++ divider [] :: []).
Proof.
  apply (X23_nothing_read_after_divider [article_paragraph [lit "Kept."]]
           [article_paragraph [lit "Dropped."]] []).
  reflexivity.
Defined.
